(** * A reminder bot on ActivityPub: shallow embedding of [main.py]

    The development follows the layout of the program: the fragment of the
    Python runtime that [main.py] relies on (text, integers read from text,
    [timedelta], [datetime], [uuid]), the command parser [parse_reminder],
    the activity records, the process state with its two dictionaries
    [ACTIVITY_STORE] and [CACHE], the HTTP endpoints, and the inbox
    handlers together with the deferred task [send_reminder].

    Python text is a sequence of Unicode code points, so [str] is a list of
    code points; literals of the program that are plain ASCII are written
    with [u "..."]. *)

From Stdlib Require Import ZArith NArith Lia Bool String Ascii DecimalString.
From stdpp Require Import base numbers list option gmap.

Open Scope Z_scope.

(* ===================================================================== *)
(** ** The Python runtime that the program relies on *)
(* ===================================================================== *)

Module Py.

(** A Python [str]: the list of its code points. *)
Definition str := list N.

(** An ASCII literal of the program as a [str]. *)
Definition u (s : string) : str :=
  List.map N_of_ascii (list_ascii_of_string s).

(** Exceptions the modelled code can raise.  [TransportError] stands for
    whatever the federation client raises when a request fails. *)
Inductive exn :=
  | ValueError
  | OverflowError
  | TypeError
  | AttributeError
  | TransportError (code : N).

(** The outcome of a call: a value, or a raised exception. *)
Inductive result (A : Type) :=
  | Ok (a : A)
  | Raise (e : exn).
Arguments Ok {A} a.
Arguments Raise {A} e.

Definition rbind {A B} (r : result A) (k : A -> result B) : result B :=
  match r with
  | Ok a => k a
  | Raise e => Raise e
  end.

(** *** Character classes

    [\s] of [re] on text and [str.strip()] use the same set of white space
    characters ([str.isspace]). *)
Definition is_space (c : N) : bool :=
  ((9 <=? c) && (c <=? 13) ||
   (28 <=? c) && (c <=? 32) ||
   (c =? 133) || (c =? 160) || (c =? 5760) ||
   (8192 <=? c) && (c <=? 8202) ||
   (c =? 8232) || (c =? 8233) || (c =? 8239) || (c =? 8287) ||
   (c =? 12288))%N.

(** [\d] of [re] on text matches the decimal digits of Unicode (category
    Nd); [int] reads the same characters.  They come in runs in which the
    digit value is the offset in the run modulo ten.  Each entry is the
    first code point of a run and its length (Unicode 15.0, the version of
    CPython 3.12, the first release that reads the f-strings of
    [main.py]). *)
Definition decimal_runs : list (N * N) :=
  [ (48, 10); (1632, 10); (1776, 10); (1984, 10); (2406, 10); (2534, 10);
    (2662, 10); (2790, 10); (2918, 10); (3046, 10); (3174, 10); (3302, 10);
    (3430, 10); (3558, 10); (3664, 10); (3792, 10); (3872, 10); (4160, 10);
    (4240, 10); (6112, 10); (6160, 10); (6470, 10); (6608, 10); (6784, 10);
    (6800, 10); (6992, 10); (7088, 10); (7232, 10); (7248, 10); (42528, 10);
    (43216, 10); (43264, 10); (43472, 10); (43504, 10); (43600, 10);
    (44016, 10); (65296, 10); (66720, 10); (68912, 10); (69734, 10);
    (69872, 10); (69942, 10); (70096, 10); (70384, 10); (70736, 10);
    (70864, 10); (71248, 10); (71360, 10); (71472, 10); (71904, 10);
    (72016, 10); (72784, 10); (73040, 10); (73120, 10); (73552, 10);
    (92768, 10); (92864, 10); (93008, 10); (120782, 50); (123200, 10);
    (123632, 10); (124144, 10); (125264, 10); (130032, 10) ]%N.

Fixpoint decimal_in (runs : list (N * N)) (c : N) : option N :=
  match runs with
  | [] => None
  | (start, len) :: rest =>
      if ((start <=? c) && (c <? start + len))%N
      then Some ((c - start) mod 10)%N
      else decimal_in rest c
  end.

(** The digit value of a decimal digit, [None] for any other character. *)
Definition decimal_value (c : N) : option N := decimal_in decimal_runs c.

Definition is_decimal (c : N) : bool :=
  match decimal_value c with Some _ => true | None => false end.

(** *** Scanning helpers *)

Fixpoint take_while {A} (p : A -> bool) (l : list A) : list A :=
  match l with
  | [] => []
  | x :: r => if p x then x :: take_while p r else []
  end.

Fixpoint drop_while {A} (p : A -> bool) (l : list A) : list A :=
  match l with
  | [] => []
  | x :: r => if p x then drop_while p r else l
  end.

(** [str.strip()] with no argument. *)
Definition lstrip (s : str) : str := drop_while is_space s.
Definition rstrip (s : str) : str := rev (drop_while is_space (rev s)).
Definition strip (s : str) : str := rstrip (lstrip s).

(** *** Integers and text *)

(** [sys.get_int_max_str_digits()], at its default. *)
Definition int_max_str_digits : nat := 4300.

(** The value of a run of decimal digits, most significant first. *)
Fixpoint digits_value (acc : Z) (ds : str) : option Z :=
  match ds with
  | [] => Some acc
  | c :: r =>
      match decimal_value c with
      | Some d => digits_value (10 * acc + Z.of_N d) r
      | None => None
      end
  end.

(** [int(s)] for the text the parser hands it, a run of decimal digits:
    [ValueError] on anything else, and on more digits than
    [int_max_str_digits] (leading zeros count). *)
Definition int (s : str) : result Z :=
  match s with
  | [] => Raise ValueError
  | _ =>
      match digits_value 0 s with
      | None => Raise ValueError
      | Some v =>
          if (int_max_str_digits <? length s)%nat then Raise ValueError
          else Ok v
      end
  end.

(** [str(n)] for a non-negative integer: its decimal digits. *)
Definition str_of_int (n : Z) : str :=
  u (NilEmpty.string_of_uint (N.to_uint (Z.to_N n))).

(** [str.lower()] on the characters the program applies it to, the text of
    the unit group: A-Z map to a-z, every other character the group can
    hold (a-z and U+017F) is unchanged. *)
Definition lower_char (c : N) : N :=
  if ((65 <=? c) && (c <=? 90))%N then (c + 32)%N else c.

Definition lower (s : str) : str := List.map lower_char s.

(** *** [datetime.timedelta] *)

Record timedelta := mk_timedelta {
  td_days : Z;
  td_seconds : Z;
  td_microseconds : Z
}.

(** [timedelta(days=, seconds=, minutes=, hours=)] on integers: the
    arguments are folded into days and seconds of the day, and a day count
    above 999999999 in magnitude raises [OverflowError]. *)
Definition timedelta_new (days seconds minutes hours : Z) : result timedelta :=
  let s := seconds + minutes * 60 + hours * 3600 in
  let d := days + s / 86400 in
  if 999999999 <? Z.abs d then Raise OverflowError
  else Ok (mk_timedelta d (s mod 86400) 0).

(** [bool(td)]: a zero duration is false. *)
Definition timedelta_bool (t : timedelta) : bool :=
  negb ((td_days t =? 0) && (td_seconds t =? 0) && (td_microseconds t =? 0)).

(** [a < b] on durations compares (days, seconds, microseconds). *)
Definition timedelta_lt (a b : timedelta) : bool :=
  (td_days a <? td_days b) ||
  ((td_days a =? td_days b) &&
   ((td_seconds a <? td_seconds b) ||
    ((td_seconds a =? td_seconds b) &&
     (td_microseconds a <? td_microseconds b)))).

(** *** [datetime.datetime]

    A naive [datetime] is a count of microseconds on the local clock.  The
    difference of two is a normalised [timedelta]; dates lie between the
    years 1 and 9999, so the difference never leaves the range of
    [timedelta]. *)
Definition datetime := Z.

Definition datetime_sub (a b : datetime) : timedelta :=
  let us := a - b in
  mk_timedelta (us / 86400000000)
               ((us mod 86400000000) / 1000000)
               (us mod 1000000).

(** *** [uuid.UUID] *)

(** A UUID is its 128-bit integer ([UUID.int]). *)
Record UUID := mk_UUID { uuid_int : N }.

Definition hex_char (d : N) : N :=
  if (d <? 10)%N then (48 + d)%N else (87 + d)%N.

(** [n] as [w] lowercase hexadecimal digits, most significant first. *)
Fixpoint hex (w : nat) (n : N) : str :=
  match w with
  | O => []
  | S w' => hex w' (n / 16)%N ++ [hex_char (n mod 16)%N]
  end.

(** [str(uuid)]: 32 hexadecimal digits grouped 8-4-4-4-12. *)
Definition uuid_str (x : UUID) : str :=
  let h := hex 32 (uuid_int x) in
  take 8 h ++ [45%N] ++ take 4 (drop 8 h) ++ [45%N] ++
  take 4 (drop 12 h) ++ [45%N] ++ take 4 (drop 16 h) ++ [45%N] ++
  drop 20 h.

End Py.

Import Py.

(* ===================================================================== *)
(** ** Configuration *)
(* ===================================================================== *)

Definition HOST : str := u "apsig.amase.cc".
Definition USER_ID : str := u "reminder".

(* ===================================================================== *)
(** ** Reminder parsing logic *)
(* ===================================================================== *)

(** The unit alternative [(s|m|h|d)] under [re.IGNORECASE]: both cases of
    the four letters, and U+017F (long s), which the case-insensitive
    matcher equates with [s]. *)
Definition is_unit (c : N) : bool :=
  ((c =? 115) || (c =? 83) || (c =? 383) ||
   (c =? 109) || (c =? 77) ||
   (c =? 104) || (c =? 72) ||
   (c =? 100) || (c =? 68))%N.

(** [.] without [re.DOTALL]: any character but the line feed. *)
Definition is_dot (c : N) : bool := negb (c =? 10)%N.

(** [pattern.search(text)] for the pattern of [parse_reminder] (start of
    text, white space, a group of decimal digits, white space, the unit
    group, white space, a last group of any characters) under
    [re.IGNORECASE], returning [match.groups()].  White space, decimal
    digits and unit letters are pairwise disjoint ([space_not_decimal],
    [unit_not_decimal], [unit_not_space] below), so each greedy star takes
    its whole run and no backtracking changes the outcome. *)
Definition pattern_search (text : str) : option (str * str * str) :=
  let t1 := drop_while is_space text in          (* start, white space  *)
  let value := take_while is_decimal t1 in       (* group 1: digits     *)
  let t2 := drop_while is_decimal t1 in
  match value with
  | [] => None
  | _ =>
      let t3 := drop_while is_space t2 in        (* white space  *)
      match t3 with
      | c :: t4 =>
          if is_unit c then                      (* group 2     *)
            let t5 := drop_while is_space t4 in  (* white space  *)
            Some (value, [c], take_while is_dot t5)   (* group 3 *)
          else None
      | [] => None
      end
  end.

(** The default message. *)
Definition DEFAULT_MESSAGE : str := u "Here's your reminder!".

(** What [parse_reminder] returns: a tuple of three optional values. *)
Definition parsed := (option timedelta * option str * option str)%type.

Definition NoMatch : parsed := (None, None, None).

Definition parse_reminder (text : str) : result parsed :=
  match pattern_search text with
  | None => Ok NoMatch
  | Some (value, unit, message) =>
      rbind (int value) (fun value =>
      let original_time_string := str_of_int value ++ lower unit in
      let unit := lower unit in
      let finish (delta : result timedelta) : result parsed :=
        rbind delta (fun delta =>
        let message :=
          match strip message with
          | [] => DEFAULT_MESSAGE
          | _ => message
          end in
        Ok (Some delta, Some (strip message), Some original_time_string)) in
      if decide (unit = u "s") then finish (timedelta_new 0 value 0 0)
      else if decide (unit = u "m") then finish (timedelta_new 0 0 value 0)
      else if decide (unit = u "h") then finish (timedelta_new 0 0 0 value)
      else if decide (unit = u "d") then finish (timedelta_new value 0 0 0)
      else Ok NoMatch)
  end.

(* ===================================================================== *)
(** ** Text helpers of the inbox handler *)
(* ===================================================================== *)

Definition CHAR_LT : N := 60%N.   (* the character < *)
Definition CHAR_GT : N := 62%N.   (* the character > *)
Definition CHAR_DQ : N := 34%N.   (* the double quote *)

(** After the first character of a tag body: the number of characters up
    to and including the nearest [>], provided no [<] comes first. *)
Fixpoint tag_close (s : str) : option nat :=
  match s with
  | [] => None
  | c :: r =>
      if (c =? CHAR_GT)%N then Some 1%nat
      else if (c =? CHAR_LT)%N then None
      else option_map S (tag_close r)
  end.

(** The length of a match of the tag pattern after its opening [<]: one
    character other than [<], then lazily more of them, then [>]. *)
Definition tag_length (s : str) : option nat :=
  match s with
  | [] => None
  | c :: r => if (c =? CHAR_LT)%N then None else option_map S (tag_close r)
  end.

Fixpoint strip_tags_from (skip : nat) (s : str) : str :=
  match s with
  | [] => []
  | c :: r =>
      match skip with
      | S k => strip_tags_from k r
      | O =>
          if (c =? CHAR_LT)%N then
            match tag_length r with
            | Some n => strip_tags_from n r
            | None => c :: strip_tags_from 0 r
            end
          else c :: strip_tags_from 0 r
      end
  end.

(** [re.sub(P, '', s)] for the tag pattern [P] of the handler: every match,
    left to right, is removed. *)
Definition strip_tags (s : str) : str := strip_tags_from 0 s.

Fixpoint starts_with (p s : str) : bool :=
  match p, s with
  | [], _ => true
  | _ :: _, [] => false
  | a :: p', b :: s' => (a =? b)%N && starts_with p' s'
  end.

Fixpoint replace_from (old new : str) (skip : nat) (s : str) : str :=
  match s with
  | [] => []
  | c :: r =>
      match skip with
      | S k => replace_from old new k r
      | O =>
          if starts_with old s
          then new ++ replace_from old new (length old - 1) r
          else c :: replace_from old new 0 r
      end
  end.

(** [s.replace(old, new)] for a non-empty [old]. *)
Definition replace (s old new : str) : str := replace_from old new 0 s.

(** How an f-string renders an optional text: [None] prints as such. *)
Definition format_opt (o : option str) : str :=
  match o with
  | Some s => s
  | None => u "None"
  end.

(* ===================================================================== *)
(** ** Activity records *)
(* ===================================================================== *)

(** A remote actor as the handlers read it.  [actor_repr] is the text that
    formatting the object itself yields. *)
Record Actor := mk_Actor {
  actor_id : str;
  actor_preferredUsername : option str;
  actor_url : option str;
  actor_repr : str
}.

(** The [actor] field of an incoming activity: a URI or an embedded actor. *)
Inductive ActorRef :=
  | RefUri (uri : str)
  | RefActor (a : Actor).

Record Mention := mk_Mention {
  href : option str;
  name : option str
}.

Inductive Tag :=
  | TagMention (m : Mention)
  | TagOther.

Record Note := mk_Note {
  note_id : option str;
  attributedTo : option str;
  inReplyTo : option str;
  content : option str;
  note_to : list str;
  tag : list Tag
}.

Inductive Object :=
  | ObjNote (n : Note)
  | ObjOther.

Record Create := mk_Create {
  create_id : option str;
  create_actor : ActorRef;
  create_object : Object;
  create_to : list str
}.

Record Follow := mk_Follow {
  follow_id : option str;
  follow_actor : ActorRef
}.

(** What a verified inbox request carries. *)
Inductive Activity :=
  | ActCreate (c : Create)
  | ActFollow (f : Follow)
  | ActOther.

Record CryptographicKey := mk_CryptographicKey {
  key_id : str;
  key_owner : str;
  publicKeyPem : str
}.

(** This process's own actor. *)
Record Application := mk_Application {
  app_id : str;
  app_name : str;
  app_preferredUsername : str;
  app_summary : str;
  app_inbox : str;
  app_outbox : str;
  app_publicKey : CryptographicKey
}.

Record Accept := mk_Accept {
  accept_id : str;
  accept_actor : Application;
  accept_object : Follow
}.

(** The values of [ACTIVITY_STORE]. *)
Inductive stored :=
  | StoredNote (n : Note)
  | StoredCreate (c : Create).

Definition stored_id (a : stored) : option str :=
  match a with
  | StoredNote n => note_id n
  | StoredCreate c => create_id c
  end.

(** What [ctx.send] is given to deliver. *)
Inductive outgoing :=
  | OutCreate (c : Create)
  | OutAccept (a : Accept).

(** HTTP responses of endpoints and handlers. *)
Record WebfingerResource := mk_WebfingerResource {
  acct_username : option str;
  acct_host : option str;
  acct_url : option str
}.

Record WebfingerLink := mk_WebfingerLink {
  link_rel : str;
  link_type : str;
  link_href : str
}.

Inductive response :=
  | Response (status_code : Z)
  | ActivityResponse (a : stored)
  | WebfingerResponse (subject : WebfingerResource) (links : list WebfingerLink)
  | NotFoundMessage.

Definition status_of (r : response) : Z :=
  match r with
  | Response c => c
  | ActivityResponse _ => 200
  | WebfingerResponse _ _ => 200
  | NotFoundMessage => 404
  end.

(** The outcome of [client.actor.fetch]: an actor, a false value (the
    handlers test for one), or a raised exception. *)
Inductive fetched :=
  | Fetched (a : Actor)
  | FetchedNone
  | FetchRaised (e : exn).

(** [CACHE_TTL = timedelta(minutes=5)] *)
Definition CACHE_TTL : timedelta := mk_timedelta 0 300 0.

Definition actor_uri : str := u "https://" ++ HOST ++ u "/actor".

(* ===================================================================== *)
(** ** The running process *)
(* ===================================================================== *)

Section Process.

(** What start-up leaves in the module globals: the private key and the
    PEM text of its public half.  [uuid4_draw n] is the value of the
    [n]-th call of [uuid.uuid4()]. *)
Context {PrivateKey : Type}.
Variable private_key : PrivateKey.
Variable public_key_pem : str.
Variable uuid4_draw : nat -> UUID.

Definition actor : Application :=
  mk_Application
    actor_uri
    (u "Reminder Bot")
    USER_ID
    (u "A bot that sends you reminders. Mention me like: @reminder 5m Check the oven")
    (u "https://" ++ HOST ++ u "/inbox")
    (u "https://" ++ HOST ++ u "/outbox")
    (mk_CryptographicKey
       (u "https://" ++ HOST ++ u "/actor#main-key")
       (u "https://" ++ HOST ++ u "/actor")
       public_key_pem).

Record ActorKey := mk_ActorKey {
  ak_key_id : str;
  ak_private_key : PrivateKey
}.

(** Key retrieval function. *)
Definition get_keys_for_actor (identifier : str) : list ActorKey :=
  if decide (identifier = app_id actor)
  then [mk_ActorKey (key_id (app_publicKey actor)) private_key]
  else [].

(** One call of [ctx.send(keys, target, activity)]. *)
Record delivery := mk_delivery {
  d_keys : list ActorKey;
  d_target : Actor;
  d_activity : outgoing
}.

(** The arguments of one [asyncio.create_task(send_reminder(...))]. *)
Record reminder_task := mk_task {
  task_delay : timedelta;
  task_message : str;
  task_target : Actor;
  task_note : Note
}.

(** The federation transport during one handler run: what a fetch of an
    actor yields, and the exception, if any, that a delivery raises. *)
Record transport := mk_transport {
  tr_fetch : ActorRef -> fetched;
  tr_send : list ActorKey -> Actor -> outgoing -> option exn
}.

(** The state of the process.  [ACTIVITY_STORE] and [CACHE] are the two
    dictionaries of the program.  [uuids_drawn] counts the calls of
    [uuid.uuid4()], [deliveries] lists the calls of [ctx.send] (latest
    first), [tasks] the reminder tasks created and not yet fired.
    [store_reads] is instrumentation the program does not have: it counts
    the look-ups of [ACTIVITY_STORE] by the fetch endpoints (the
    membership test and the subscript that follows it are one look-up). *)
Record world := mk_world {
  ACTIVITY_STORE : gmap str stored;
  CACHE : gmap str (stored * datetime);
  uuids_drawn : nat;
  deliveries : list delivery;
  tasks : list reminder_task;
  store_reads : nat
}.

Definition initial_world : world := mk_world ∅ ∅ 0 [] [] 0.

(** Effectful code: a state transformer that may raise.  The state
    reached when an exception is raised is kept. *)
Definition M (A : Type) : Type := world -> result A * world.

Definition ret {A} (a : A) : M A := fun w => (Ok a, w).
Definition raise {A} (e : exn) : M A := fun w => (Raise e, w).
Definition bind {A B} (m : M A) (k : A -> M B) : M B :=
  fun w =>
    match m w with
    | (Ok a, w') => k a w'
    | (Raise e, w') => (Raise e, w')
    end.
Definition lift {A} (r : result A) : M A := fun w => (r, w).

Notation "x <- c1 ;; c2" := (bind c1 (fun x => c2))
  (at level 100, c1 at next level, right associativity).
Notation "c1 ;;; c2" := (bind c1 (fun _ => c2))
  (at level 100, right associativity).

(** [uuid.uuid4()] *)
Definition uuid4 : M UUID :=
  fun w =>
    (Ok (uuid4_draw (uuids_drawn w)),
     mk_world (ACTIVITY_STORE w) (CACHE w) (S (uuids_drawn w))
              (deliveries w) (tasks w) (store_reads w)).

(** [ACTIVITY_STORE[key] = value] *)
Definition store_put (key : str) (value : stored) : M unit :=
  fun w =>
    (Ok tt,
     mk_world (<[key := value]> (ACTIVITY_STORE w)) (CACHE w) (uuids_drawn w)
              (deliveries w) (tasks w) (store_reads w)).

(** [ACTIVITY_STORE[x.id] = x]: the key is the [id] attribute.  Both
    handlers store records they have just built with an [id]; a record
    without one, which Python would file under the key [None], has no
    place in a dictionary keyed by text and is made to raise here. *)
Definition store_put_by_id (value : stored) : M unit :=
  match stored_id value with
  | Some key => store_put key value
  | None => raise TypeError
  end.

(** The look-up of [ACTIVITY_STORE] by a fetch endpoint. *)
Definition store_get (key : str) : M (option stored) :=
  fun w =>
    (Ok (ACTIVITY_STORE w !! key),
     mk_world (ACTIVITY_STORE w) (CACHE w) (uuids_drawn w)
              (deliveries w) (tasks w) (S (store_reads w))).

Definition cache_get (key : str) : M (option (stored * datetime)) :=
  fun w => (Ok (CACHE w !! key), w).

(** [CACHE[key] = {"activity": activity, "timestamp": timestamp}] *)
Definition cache_put (key : str) (activity : stored) (timestamp : datetime)
  : M unit :=
  fun w =>
    (Ok tt,
     mk_world (ACTIVITY_STORE w) (<[key := (activity, timestamp)]> (CACHE w))
              (uuids_drawn w) (deliveries w) (tasks w) (store_reads w)).

(** [asyncio.create_task(send_reminder(ctx, delay, message, target, note))] *)
Definition create_task (t : reminder_task) : M unit :=
  fun w =>
    (Ok tt,
     mk_world (ACTIVITY_STORE w) (CACHE w) (uuids_drawn w)
              (deliveries w) (t :: tasks w) (store_reads w)).

(** [await ctx.send(keys, target, activity)] *)
Definition send (tr : transport) (keys : list ActorKey) (target : Actor)
    (activity : outgoing) : M unit :=
  fun w =>
    let w' := mk_world (ACTIVITY_STORE w) (CACHE w) (uuids_drawn w)
                (mk_delivery keys target activity :: deliveries w)
                (tasks w) (store_reads w) in
    match tr_send tr keys target activity with
    | None => (Ok tt, w')
    | Some e => (Raise e, w')
    end.

(** [await client.actor.fetch(ref)]: the actor or a false value, or the
    exception the client raised. *)
Definition fetch (tr : transport) (ref : ActorRef) : M (option Actor) :=
  match tr_fetch tr ref with
  | Fetched a => ret (Some a)
  | FetchedNone => ret None
  | FetchRaised e => raise e
  end.

(** Attribute access on a value that may be [None]. *)
Definition attr {A B} (o : option A) (f : A -> B) : M B :=
  match o with
  | Some a => ret (f a)
  | None => raise AttributeError
  end.

(** *** The deferred task *)

Definition mention_html (target_actor : Actor) : str :=
  u "<p><span class=" ++ [CHAR_DQ] ++ u "h-card" ++ [CHAR_DQ] ++
  u " translate=" ++ [CHAR_DQ] ++ u "no" ++ [CHAR_DQ] ++ u "><a href=" ++ [CHAR_DQ] ++
  format_opt (actor_url target_actor) ++ [CHAR_DQ] ++ u " class=" ++ [CHAR_DQ] ++
  u "u-url mention" ++ [CHAR_DQ] ++ u ">@<span>" ++
  format_opt (actor_preferredUsername target_actor) ++
  u "</span></a></span></p>".

Definition reminder_content (target_actor : Actor) (message : str) : str :=
  u "<p>" ++ [128276%N] ++ u " Reminder for " ++ mention_html target_actor ++
  u ": " ++ message ++ u "</p>".

(** [send_reminder] from the point where its sleep of [delay] has elapsed.
    The re-fetch rebinds [target_actor] unless it raises; the first
    attribute access on a false value raises [AttributeError]. *)
Definition send_reminder (tr : transport) (delay : timedelta) (message : str)
    (target_actor : Actor) (original_note : Note) : M unit :=
  let refetched : option Actor :=
    match tr_fetch tr (RefUri (actor_id target_actor)) with
    | Fetched a => Some a
    | FetchedNone => None
    | FetchRaised _ => Some target_actor
    end in
  target_actor <- attr refetched id ;;
  let mention_tag :=
    mk_Mention (Some (actor_id target_actor))
      (Some (u "@" ++ format_opt (actor_preferredUsername target_actor))) in
  note_uuid <- uuid4 ;;
  let reminder_note :=
    mk_Note (Some (u "https://" ++ HOST ++ u "/notes/" ++ uuid_str note_uuid))
            (Some (app_id actor))
            (note_id original_note)
            (Some (reminder_content target_actor message))
            [actor_id target_actor]
            [TagMention mention_tag] in
  create_uuid <- uuid4 ;;
  let reminder_create :=
    mk_Create (Some (u "https://" ++ HOST ++ u "/creates/" ++ uuid_str create_uuid))
              (RefUri (app_id actor))
              (ObjNote reminder_note)
              [actor_id target_actor] in
  store_put_by_id (StoredNote reminder_note) ;;;
  store_put_by_id (StoredCreate reminder_create) ;;;
  let keys := get_keys_for_actor (u "https://" ++ HOST ++ u "/actor") in
  send tr keys target_actor (OutCreate reminder_create).

(** *** Endpoints *)

Definition self_link : WebfingerLink :=
  mk_WebfingerLink (u "self") (u "application/activity+json") (app_id actor).

(** [not x] for an optional text: [None] and the empty text are false. *)
Definition falsy (o : option str) : bool :=
  match o with
  | None | Some [] => true
  | Some (_ :: _) => false
  end.

Definition webfinger_endpoint (acct : WebfingerResource) : response :=
  if falsy (acct_url acct) then
    if bool_decide (acct_username acct = Some USER_ID) &&
       bool_decide (acct_host acct = Some HOST)
    then WebfingerResponse acct [self_link]
    else NotFoundMessage
  else
    if bool_decide (acct_url acct = Some (u "https://" ++ HOST ++ u "/actor"))
    then WebfingerResponse acct [self_link]
    else NotFoundMessage.

(** The two fetch endpoints.  [now_check] and [now_insert] are the values
    of the two calls of [datetime.now()], in the cache test and in the
    cache insertion. *)
Definition get_note_endpoint (note_id : UUID) (now_check now_insert : datetime)
  : M response :=
  let note_uri := u "https://" ++ HOST ++ u "/notes/" ++ uuid_str note_id in
  let from_store : M response :=
    found <- store_get note_uri ;;
    match found with
    | Some activity =>
        cache_put note_uri activity now_insert ;;;
        ret (ActivityResponse activity)
    | None => ret (Response 404)
    end in
  cached <- cache_get note_uri ;;
  match cached with
  | Some (activity, timestamp) =>
      if timedelta_lt (datetime_sub now_check timestamp) CACHE_TTL
      then ret (ActivityResponse activity)
      else from_store
  | None => from_store
  end.

Definition get_create_endpoint (create_id : UUID)
    (now_check now_insert : datetime) : M response :=
  let create_uri := u "https://" ++ HOST ++ u "/creates/" ++ uuid_str create_id in
  let from_store : M response :=
    found <- store_get create_uri ;;
    match found with
    | Some activity =>
        cache_put create_uri activity now_insert ;;;
        ret (ActivityResponse activity)
    | None => ret (Response 404)
    end in
  cached <- cache_get create_uri ;;
  match cached with
  | Some (activity, timestamp) =>
      if timedelta_lt (datetime_sub now_check timestamp) CACHE_TTL
      then ret (ActivityResponse activity)
      else from_store
  | None => from_store
  end.

(** *** Activity handlers *)

(** Automatically accept all follow requests. *)
Definition on_follow_activity (tr : transport) (activity : Activity)
  : M response :=
  match activity with
  | ActFollow follow =>
      follower_actor <-
        fetch tr (RefUri (match follow_actor follow with
                          | RefActor a => actor_id a
                          | RefUri uri => uri
                          end)) ;;
      match follower_actor with
      | None => ret (Response 400)
      | Some follower_actor =>
          let accept_activity :=
            mk_Accept
              (u "https://" ++ HOST ++ u "/activity/follows/" ++
               actor_repr follower_actor)
              actor follow in
          let keys := get_keys_for_actor (u "https://" ++ HOST ++ u "/actor") in
          send tr keys follower_actor (OutAccept accept_activity) ;;;
          ret (Response 202)
      end
  | _ => ret (Response 400)
  end.

Definition is_mention_of (uri : str) (t : Tag) : bool :=
  match t with
  | TagMention m => bool_decide (href m = Some uri)
  | TagOther => false
  end.

Definition ACK_PREFIX : str := u "<p>" ++ [9989%N] ++ u " OK! I'll remind you in ".

Definition USAGE_HELP : str :=
  u "<p>" ++ [129300%N] ++
  u " Sorry, I didn't understand. Use format: <code>@reminder [time] [message]</code>.</p><p>Example: <code>@reminder 10m Check the oven</code></p>".

(** The command text the handler hands to [parse_reminder]. *)
Definition command_text_of (content : str) : str :=
  let clean_content := strip_tags content in
  let bot_mention_str := u "@" ++ app_preferredUsername actor in
  strip (replace clean_content bot_mention_str []).

Definition on_create_activity (tr : transport) (activity : Activity)
  : M response :=
  match activity with
  | ActCreate create =>
      match create_object create with
      | ObjNote note =>
          let is_mentioned := existsb (is_mention_of (app_id actor)) (tag note) in
          if negb is_mentioned then ret (Response 202)
          else
            text <- match content note with
                    | Some text => ret text
                    | None => raise TypeError
                    end ;;
            let command_text := command_text_of text in
            parsed <- lift (parse_reminder command_text) ;;
            let '(delay, message, time_str) := parsed in
            sender_actor <- fetch tr (create_actor create) ;;
            reply_content <-
              match delay, message, sender_actor with
              | Some delay, Some (c :: m), Some sender =>
                  if timedelta_bool delay then
                    create_task (mk_task delay (c :: m) sender note) ;;;
                    ret (ACK_PREFIX ++ format_opt time_str ++ u ".</p>")
                  else ret USAGE_HELP
              | _, _, _ => ret USAGE_HELP
              end ;;
            note_uuid <- uuid4 ;;
            sender_actor <- attr sender_actor id ;;
            let reply_note :=
              mk_Note
                (Some (u "https://" ++ HOST ++ u "/notes/" ++ uuid_str note_uuid))
                (Some (app_id actor))
                (note_id note)
                (Some reply_content)
                [actor_id sender_actor]
                [TagMention
                   (mk_Mention (Some (actor_id sender_actor))
                      (Some (u "@" ++
                             format_opt (actor_preferredUsername sender_actor))))] in
            create_uuid <- uuid4 ;;
            let reply_create :=
              mk_Create
                (Some (u "https://" ++ HOST ++ u "/creates/" ++ uuid_str create_uuid))
                (RefUri (app_id actor))
                (ObjNote reply_note)
                [actor_id sender_actor] in
            store_put_by_id (StoredNote reply_note) ;;;
            store_put_by_id (StoredCreate reply_create) ;;;
            let keys := get_keys_for_actor (u "https://" ++ HOST ++ u "/actor") in
            send tr keys sender_actor (OutCreate reply_create) ;;;
            ret (Response 202)
      | ObjOther => ret (Response 202)
      end
  | _ => ret (Response 202)
  end.

(** *** Runs of the process *)

Definition with_tasks (w : world) (ts : list reminder_task) : world :=
  mk_world (ACTIVITY_STORE w) (CACHE w) (uuids_drawn w) (deliveries w) ts
           (store_reads w).

(** One request served, or one pending reminder fired. *)
Inductive step (w : world) : world -> Prop :=
  | step_create tr activity :
      step w (on_create_activity tr activity w).2
  | step_follow tr activity :
      step w (on_follow_activity tr activity w).2
  | step_fire tr t before after :
      tasks w = before ++ t :: after ->
      step w (send_reminder tr (task_delay t) (task_message t) (task_target t)
                (task_note t) (with_tasks w (before ++ after))).2
  | step_get_note note_id now_check now_insert :
      step w (get_note_endpoint note_id now_check now_insert w).2
  | step_get_create create_id now_check now_insert :
      step w (get_create_endpoint create_id now_check now_insert w).2.

Definition reachable (w : world) : Prop := rtc step initial_world w.

(* ===================================================================== *)
(** ** Properties of the endpoints *)
(* ===================================================================== *)

(** The queries the discovery endpoint answers: the configured handle when
    the resource carries no URL, and the actor's own URI as a URL. *)
Definition is_configured_handle (acct : WebfingerResource) : Prop :=
  falsy (acct_url acct) = true /\
  acct_username acct = Some USER_ID /\
  acct_host acct = Some HOST.

Definition is_actor_url (acct : WebfingerResource) : Prop :=
  acct_url acct = Some actor_uri.

(** C9, amended.  The discovery endpoint answers 200 with one [self] link
    to the actor in two cases: the resource has no URL and names the
    configured user on the configured host, or the resource is the URL of
    the actor itself.  Every other query gets 404. *)
Theorem webfinger_answers (acct : WebfingerResource) :
  (is_configured_handle acct \/ is_actor_url acct ->
   webfinger_endpoint acct =
     WebfingerResponse acct
       [mk_WebfingerLink (u "self") (u "application/activity+json") actor_uri] /\
   status_of (webfinger_endpoint acct) = 200) /\
  (~ (is_configured_handle acct \/ is_actor_url acct) ->
   webfinger_endpoint acct = NotFoundMessage /\
   status_of (webfinger_endpoint acct) = 404).
Proof.
  unfold is_configured_handle, is_actor_url, webfinger_endpoint.
  change (u "https://" ++ HOST ++ u "/actor") with actor_uri.
  change self_link with
    (mk_WebfingerLink (u "self") (u "application/activity+json") actor_uri).
  split.
  - intros [(Hf & Hu & Hh) | Hurl].
    + rewrite Hf, Hu, Hh. rewrite !bool_decide_eq_true_2 by reflexivity.
      split; reflexivity.
    + rewrite Hurl.
      replace (falsy (Some actor_uri)) with false by (vm_compute; reflexivity).
      rewrite bool_decide_eq_true_2 by reflexivity.
      split; reflexivity.
  - intros Hno.
    destruct (falsy (acct_url acct)) eqn:Hf.
    + repeat case_bool_decide; cbn [andb]; try (split; reflexivity).
      exfalso. apply Hno. left. auto.
    + case_bool_decide; try (split; reflexivity).
      exfalso. apply Hno. now right.
Qed.

(** *** The read-through cache *)

(** The two kinds of object the fetch endpoints serve. *)
Inductive kind := KNote | KCreate.

Definition kind_path (k : kind) : str :=
  match k with
  | KNote => u "/notes/"
  | KCreate => u "/creates/"
  end.

Definition object_uri (k : kind) (x : UUID) : str :=
  u "https://" ++ HOST ++ kind_path k ++ uuid_str x.

Definition fetch_endpoint (k : kind) : UUID -> datetime -> datetime -> M response :=
  match k with
  | KNote => get_note_endpoint
  | KCreate => get_create_endpoint
  end.

(** Five minutes in microseconds. *)
Definition TTL_US : Z := 5 * 60 * 1000000.

(** No entry of the cache for [uri] is younger than the TTL at [now]. *)
Definition no_fresh_entry (w : world) (uri : str) (now : datetime) : Prop :=
  forall a ts, CACHE w !! uri = Some (a, ts) -> TTL_US <= now - ts.

(** The state after a look-up of the store that found [a]. *)
Definition after_store_hit (w : world) (uri : str) (a : stored) (t : datetime)
  : world :=
  mk_world (ACTIVITY_STORE w) (<[uri := (a, t)]> (CACHE w)) (uuids_drawn w)
           (deliveries w) (tasks w) (S (store_reads w)).

(** The state after a look-up of the store that found nothing. *)
Definition after_store_miss (w : world) : world :=
  mk_world (ACTIVITY_STORE w) (CACHE w) (uuids_drawn w)
           (deliveries w) (tasks w) (S (store_reads w)).

Lemma fresh_iff (now ts : datetime) :
  timedelta_lt (datetime_sub now ts) CACHE_TTL = true <-> now - ts < TTL_US.
Proof.
  unfold timedelta_lt, datetime_sub, CACHE_TTL, TTL_US.
  cbn [td_days td_seconds td_microseconds].
  rewrite !orb_true_iff, !andb_true_iff, !Z.ltb_lt, !Z.eqb_eq.
  Z.div_mod_to_equations. lia.
Qed.

Lemma stale_iff (now ts : datetime) :
  timedelta_lt (datetime_sub now ts) CACHE_TTL = false <-> TTL_US <= now - ts.
Proof.
  pose proof (fresh_iff now ts) as H.
  destruct (timedelta_lt (datetime_sub now ts) CACHE_TTL).
  - split; [discriminate |].
    intros Hge. assert (now - ts < TTL_US) by (apply H; reflexivity). lia.
  - split; [intros _ | reflexivity].
    destruct (Z.lt_ge_cases (now - ts) TTL_US) as [Hlt | Hge]; [| exact Hge].
    apply H in Hlt. discriminate.
Qed.

(** What a fetch endpoint does, by cases on the two dictionaries. *)
Lemma fetch_endpoint_unfold (k : kind) (x : UUID) (now_check now_insert : datetime)
    (w : world) :
  fetch_endpoint k x now_check now_insert w =
    let uri := object_uri k x in
    let from_store :=
      match ACTIVITY_STORE w !! uri with
      | Some a => (Ok (ActivityResponse a), after_store_hit w uri a now_insert)
      | None => (Ok (Response 404), after_store_miss w)
      end in
    match CACHE w !! uri with
    | Some (a, ts) =>
        if timedelta_lt (datetime_sub now_check ts) CACHE_TTL
        then (Ok (ActivityResponse a), w)
        else from_store
    | None => from_store
    end.
Proof.
  destruct k; cbv zeta;
    unfold fetch_endpoint, get_note_endpoint, get_create_endpoint, object_uri,
      kind_path, bind, cache_get, store_get, cache_put, ret,
      after_store_hit, after_store_miss; cbn [ACTIVITY_STORE CACHE uuids_drawn
      deliveries tasks store_reads];
    destruct (CACHE w !! _) as [[a ts] |];
    try destruct (timedelta_lt _ _);
    try reflexivity;
    destruct (ACTIVITY_STORE w !! _); reflexivity.
Qed.

Lemma fetch_endpoint_cold (k : kind) (x : UUID) (now_check now_insert : datetime)
    (w : world) :
  no_fresh_entry w (object_uri k x) now_check ->
  fetch_endpoint k x now_check now_insert w =
    match ACTIVITY_STORE w !! object_uri k x with
    | Some a =>
        (Ok (ActivityResponse a),
         after_store_hit w (object_uri k x) a now_insert)
    | None => (Ok (Response 404), after_store_miss w)
    end.
Proof.
  intros Hcold. rewrite fetch_endpoint_unfold. cbv zeta.
  destruct (CACHE w !! object_uri k x) as [[a ts] |] eqn:Hc; [| reflexivity].
  apply Hcold in Hc. apply stale_iff in Hc. now rewrite Hc.
Qed.

Lemma fetch_endpoint_warm (k : kind) (x : UUID) (now_check now_insert : datetime)
    (w : world) (a : stored) (ts : datetime) :
  CACHE w !! object_uri k x = Some (a, ts) ->
  now_check - ts < TTL_US ->
  fetch_endpoint k x now_check now_insert w = (Ok (ActivityResponse a), w).
Proof.
  intros Hc Hage. rewrite fetch_endpoint_unfold. cbv zeta.
  rewrite Hc. apply fresh_iff in Hage. now rewrite Hage.
Qed.

(** A second fetch while the entry just inserted is young. *)
Lemma fetch_again_within_ttl (k : kind) (x : UUID) (w : world) (a : stored)
    (now_insert t2 t2' : datetime) :
  t2 - now_insert < TTL_US ->
  fetch_endpoint k x t2 t2' (after_store_hit w (object_uri k x) a now_insert) =
    (Ok (ActivityResponse a), after_store_hit w (object_uri k x) a now_insert).
Proof.
  intros Hage. apply fetch_endpoint_warm with now_insert; [| exact Hage].
  cbn [after_store_hit CACHE]. apply lookup_insert_eq.
Qed.

(** A later fetch once that entry has aged out. *)
Lemma fetch_again_after_ttl (k : kind) (x : UUID) (w : world) (a : stored)
    (now_insert t3 t3' : datetime) :
  ACTIVITY_STORE w !! object_uri k x = Some a ->
  TTL_US <= t3 - now_insert ->
  fetch_endpoint k x t3 t3' (after_store_hit w (object_uri k x) a now_insert) =
    (Ok (ActivityResponse a),
     after_store_hit (after_store_hit w (object_uri k x) a now_insert)
       (object_uri k x) a t3').
Proof.
  intros Hs Hage. rewrite fetch_endpoint_cold.
  - cbn [after_store_hit ACTIVITY_STORE]. now rewrite Hs.
  - intros b ts Hb. cbn [after_store_hit CACHE] in Hb.
    rewrite lookup_insert_eq in Hb. injection Hb as _ <-. exact Hage.
Qed.

(** C2.  The fetch endpoints read through the cache.  For either endpoint,
    every identifier, every state and every pair of clock readings:
    - an entry of the cache younger than five minutes is returned, and the
      state, with its count of store look-ups, is unchanged;
    - otherwise the store is looked up once; an activity found there is
      returned and cached under the time of insertion;
    - and nothing found gives 404 with the cache unchanged.
    Hence after a look-up that found [a], a second fetch less than five
    minutes after the insertion returns [a] again with only the one
    look-up counted, and a fetch five minutes or more after it looks the
    store up again and returns [a]. *)
Theorem read_through_cache (k : kind) (x : UUID)
    (now_check now_insert : datetime) (w : world) :
  let uri := object_uri k x in
  let run := fetch_endpoint k x now_check now_insert w in
  (forall a ts,
     CACHE w !! uri = Some (a, ts) -> now_check - ts < TTL_US ->
     run = (Ok (ActivityResponse a), w)) /\
  (no_fresh_entry w uri now_check ->
   forall a, ACTIVITY_STORE w !! uri = Some a ->
     run = (Ok (ActivityResponse a), after_store_hit w uri a now_insert)) /\
  (no_fresh_entry w uri now_check ->
   ACTIVITY_STORE w !! uri = None ->
     run = (Ok (Response 404), after_store_miss w) /\
     CACHE run.2 = CACHE w) /\
  (no_fresh_entry w uri now_check ->
   forall a, ACTIVITY_STORE w !! uri = Some a ->
   forall t2 t2', t2 - now_insert < TTL_US ->
     let again := fetch_endpoint k x t2 t2' run.2 in
     run.1 = Ok (ActivityResponse a) /\
     again.1 = Ok (ActivityResponse a) /\
     store_reads again.2 = S (store_reads w)) /\
  (no_fresh_entry w uri now_check ->
   forall a, ACTIVITY_STORE w !! uri = Some a ->
   forall t3 t3', TTL_US <= t3 - now_insert ->
     let later := fetch_endpoint k x t3 t3' run.2 in
     later.1 = Ok (ActivityResponse a) /\
     store_reads later.2 = S (S (store_reads w))).
Proof.
  cbv zeta.
  split; [intros a ts Hc Hage; now apply fetch_endpoint_warm with ts |].
  split; [intros Hcold a Hs; rewrite fetch_endpoint_cold by exact Hcold;
          now rewrite Hs |].
  split; [intros Hcold Hs; rewrite fetch_endpoint_cold by exact Hcold;
          rewrite Hs; split; reflexivity |].
  split.
  - intros Hcold a Hs t2 t2' Hage.
    rewrite (fetch_endpoint_cold _ _ _ _ _ Hcold), Hs. cbn [fst snd].
    rewrite fetch_again_within_ttl by exact Hage.
    repeat split.
  - intros Hcold a Hs t3 t3' Hage.
    rewrite (fetch_endpoint_cold _ _ _ _ _ Hcold), Hs. cbn [snd].
    rewrite fetch_again_after_ttl by assumption.
    split; reflexivity.
Qed.

(* ===================================================================== *)
(** ** Properties of the handlers and of the deferred task *)
(* ===================================================================== *)

Definition main_key_id : str := u "https://" ++ HOST ++ u "/actor#main-key".

(** The signing keys the handlers resolve: the one key of this actor. *)
Definition own_keys : list ActorKey := [mk_ActorKey main_key_id private_key].

(** The Note a handler builds for [recipient] with identifier [x]. *)
Definition note_for (x : UUID) (in_reply_to : option str) (body : str)
    (recipient : Actor) : Note :=
  mk_Note (Some (object_uri KNote x))
          (Some actor_uri)
          in_reply_to
          (Some body)
          [actor_id recipient]
          [TagMention
             (mk_Mention (Some (actor_id recipient))
                (Some (u "@" ++ format_opt (actor_preferredUsername recipient))))].

(** The Create that wraps it, with identifier [y]. *)
Definition create_for (y : UUID) (n : Note) (recipient : Actor) : Create :=
  mk_Create (Some (object_uri KCreate y))
            (RefUri actor_uri)
            (ObjNote n)
            [actor_id recipient].

(** The state after a Note and its Create were stored and handed to the
    transport, with [ts] the pending tasks. *)
Definition after_emit (w : world) (x y : UUID) (n : Note) (c : Create)
    (recipient : Actor) (ts : list reminder_task) : world :=
  mk_world
    (<[object_uri KCreate y := StoredCreate c]>
       (<[object_uri KNote x := StoredNote n]> (ACTIVITY_STORE w)))
    (CACHE w)
    (S (S (uuids_drawn w)))
    (mk_delivery own_keys recipient (OutCreate c) :: deliveries w)
    ts
    (store_reads w).

Lemma get_keys_own :
  get_keys_for_actor (u "https://" ++ HOST ++ u "/actor") = own_keys.
Proof.
  unfold get_keys_for_actor. rewrite decide_True by reflexivity. reflexivity.
Qed.

(** The actor [send_reminder] goes on with after the re-fetch. *)
Definition refetched (tr : transport) (target_actor : Actor) : option Actor :=
  match tr_fetch tr (RefUri (actor_id target_actor)) with
  | Fetched a => Some a
  | FetchedNone => None
  | FetchRaised _ => Some target_actor
  end.

Lemma send_reminder_outcome (tr : transport) (delay : timedelta)
    (message : str) (target_actor : Actor) (original_note : Note) (w : world)
    (a : Actor) :
  refetched tr target_actor = Some a ->
  let x := uuid4_draw (uuids_drawn w) in
  let y := uuid4_draw (S (uuids_drawn w)) in
  let n := note_for x (note_id original_note) (reminder_content a message) a in
  let c := create_for y n a in
  send_reminder tr delay message target_actor original_note w =
    (match tr_send tr own_keys a (OutCreate c) with
     | None => Ok tt
     | Some e => Raise e
     end,
     after_emit w x y n c a (tasks w)).
Proof.
  intros Hre. cbv zeta. unfold send_reminder.
  fold (refetched tr target_actor). rewrite Hre, get_keys_own.
  unfold bind, attr, ret, uuid4, store_put_by_id, store_put, send.
  cbn [stored_id note_id create_id ACTIVITY_STORE CACHE uuids_drawn deliveries
       tasks store_reads id].
  unfold after_emit, note_for, create_for, object_uri, kind_path.
  destruct (tr_send tr own_keys a _); reflexivity.
Qed.

(** The reminder the mention asks for, if the handler schedules one. *)
Definition scheduled (p : parsed) (sender : Actor) (note : Note)
  : option reminder_task :=
  match p with
  | (Some delay, Some (c :: m), _) =>
      if timedelta_bool delay then Some (mk_task delay (c :: m) sender note)
      else None
  | _ => None
  end.

Definition reply_body (p : parsed) (sender : Actor) (note : Note) : str :=
  match scheduled p sender note with
  | Some _ => ACK_PREFIX ++ format_opt p.2 ++ u ".</p>"
  | None => USAGE_HELP
  end.

Lemma on_create_outcome (tr : transport) (create : Create) (note : Note)
    (text : str) (p : parsed) (sender : Actor) (w : world) :
  create_object create = ObjNote note ->
  existsb (is_mention_of actor_uri) (tag note) = true ->
  content note = Some text ->
  parse_reminder (command_text_of text) = Ok p ->
  tr_fetch tr (create_actor create) = Fetched sender ->
  let x := uuid4_draw (uuids_drawn w) in
  let y := uuid4_draw (S (uuids_drawn w)) in
  let n := note_for x (note_id note) (reply_body p sender note) sender in
  let c := create_for y n sender in
  on_create_activity tr (ActCreate create) w =
    (match tr_send tr own_keys sender (OutCreate c) with
     | None => Ok (Response 202)
     | Some e => Raise e
     end,
     after_emit w x y n c sender
       (match scheduled p sender note with
        | Some t => t :: tasks w
        | None => tasks w
        end)).
Proof.
  intros Hobj Hmention Htext Hparse Hfetch. cbv zeta.
  unfold on_create_activity. rewrite Hobj.
  change (app_id actor) with actor_uri. rewrite Hmention, Htext. cbn [negb].
  unfold bind at 1. unfold ret at 1.
  unfold bind at 1. unfold lift. rewrite Hparse.
  destruct p as [[delay message] time_str].
  unfold bind at 1. unfold fetch. rewrite Hfetch. unfold ret at 1.
  rewrite get_keys_own.
  unfold reply_body, scheduled. cbn [snd].
  destruct delay as [delay |]; [destruct message as [[| ch m] |];
    [| destruct (timedelta_bool delay) |] |];
    unfold bind, attr, ret, uuid4, store_put_by_id, store_put, send, create_task;
    cbn [stored_id note_id create_id ACTIVITY_STORE CACHE uuids_drawn deliveries
         tasks store_reads id];
    unfold after_emit, note_for, create_for, object_uri, kind_path;
    destruct (tr_send tr own_keys sender _); reflexivity.
Qed.

Lemma object_uri_kind (k k' : kind) (x y : UUID) :
  object_uri k x = object_uri k' y -> k = k' /\ uuid_str x = uuid_str y.
Proof.
  unfold object_uri. intros H.
  apply app_inv_head in H. apply app_inv_head in H.
  destruct k, k';
    try (apply app_inv_head in H; split; [reflexivity | exact H]);
    cbn -[uuid_str] in H; discriminate.
Qed.

Lemma lookup_after_emit (w : world) (x y : UUID) (n : Note) (c : Create)
    (recipient : Actor) (ts : list reminder_task) :
  ACTIVITY_STORE (after_emit w x y n c recipient ts) !! object_uri KNote x =
    Some (StoredNote n) /\
  ACTIVITY_STORE (after_emit w x y n c recipient ts) !! object_uri KCreate y =
    Some (StoredCreate c).
Proof.
  cbn [after_emit ACTIVITY_STORE]. split.
  - rewrite lookup_insert_ne, lookup_insert_eq; [reflexivity |].
    intros H. apply object_uri_kind in H. destruct H. discriminate.
  - apply lookup_insert_eq.
Qed.

(** X18.  When the re-fetch of the target actor raises, whatever the
    exception, the fired reminder goes on with the actor it was given: it
    builds the Note and the Create for that actor, stores both under their
    URIs, and hands the Create to the transport for that actor, signed
    with this actor's key.  The task ends as the delivery ends. *)
Theorem refetch_failure_tolerated (tr : transport) (delay : timedelta)
    (message : str) (target_actor : Actor) (original_note : Note) (w : world)
    (e : exn) :
  tr_fetch tr (RefUri (actor_id target_actor)) = FetchRaised e ->
  let x := uuid4_draw (uuids_drawn w) in
  let y := uuid4_draw (S (uuids_drawn w)) in
  let n := note_for x (note_id original_note)
             (reminder_content target_actor message) target_actor in
  let c := create_for y n target_actor in
  let run := send_reminder tr delay message target_actor original_note w in
  ACTIVITY_STORE run.2 !! object_uri KNote x = Some (StoredNote n) /\
  ACTIVITY_STORE run.2 !! object_uri KCreate y = Some (StoredCreate c) /\
  deliveries run.2 =
    mk_delivery own_keys target_actor (OutCreate c) :: deliveries w /\
  run.1 = match tr_send tr own_keys target_actor (OutCreate c) with
          | None => Ok tt
          | Some e' => Raise e'
          end.
Proof.
  intros Hfetch. cbv zeta.
  rewrite (send_reminder_outcome tr delay message target_actor original_note w
             target_actor) by (unfold refetched; now rewrite Hfetch).
  cbn [fst snd].
  split; [apply lookup_after_emit |].
  split; [apply lookup_after_emit |].
  split; reflexivity.
Qed.

(** C4.  A re-fetch that fails by returning a false value, the outcome the
    two handlers test their own fetches for, is not tolerated: the false
    value replaces the actor the task was given, the first attribute access
    after the re-fetch raises [AttributeError], and the task ends there.
    No UUID is drawn, no Note or Create is stored, and nothing is handed
    to the transport: the state is the one the task fired in. *)
Theorem refetch_false_value_aborts (tr : transport) (delay : timedelta)
    (message : str) (target_actor : Actor) (original_note : Note) (w : world) :
  tr_fetch tr (RefUri (actor_id target_actor)) = FetchedNone ->
  let run := send_reminder tr delay message target_actor original_note w in
  run.1 = Raise AttributeError /\
  run.2 = w /\
  ACTIVITY_STORE run.2 = ACTIVITY_STORE w /\
  deliveries run.2 = deliveries w /\
  uuids_drawn run.2 = uuids_drawn w.
Proof.
  intros Hfetch. cbv zeta. unfold send_reminder. rewrite Hfetch.
  repeat split; reflexivity.
Qed.

(** C5, amended.  For a Create of a Note that mentions this actor, has
    text, and whose command text [parse_reminder] finds no match in: when
    the transport resolves the sender, the handler stores the reply Note
    and its Create, hands exactly one Create to the transport for the
    sender, signed with this actor's key, whose Note holds the usage help
    and answers the incoming Note, creates no reminder task, and answers
    202 unless the delivery itself raises. *)
Theorem parse_failure_reply (tr : transport) (create : Create) (note : Note)
    (text : str) (sender : Actor) (w : world) :
  create_object create = ObjNote note ->
  existsb (is_mention_of actor_uri) (tag note) = true ->
  content note = Some text ->
  parse_reminder (command_text_of text) = Ok NoMatch ->
  tr_fetch tr (create_actor create) = Fetched sender ->
  let x := uuid4_draw (uuids_drawn w) in
  let y := uuid4_draw (S (uuids_drawn w)) in
  let n := note_for x (note_id note) USAGE_HELP sender in
  let c := create_for y n sender in
  let run := on_create_activity tr (ActCreate create) w in
  deliveries run.2 = mk_delivery own_keys sender (OutCreate c) :: deliveries w /\
  tasks run.2 = tasks w /\
  ACTIVITY_STORE run.2 !! object_uri KNote x = Some (StoredNote n) /\
  ACTIVITY_STORE run.2 !! object_uri KCreate y = Some (StoredCreate c) /\
  (tr_send tr own_keys sender (OutCreate c) = None ->
   run.1 = Ok (Response 202)).
Proof.
  intros Hobj Hmention Htext Hparse Hfetch. cbv zeta.
  rewrite (on_create_outcome tr create note text NoMatch sender w)
    by assumption.
  cbn [fst snd scheduled reply_body NoMatch].
  split; [reflexivity |].
  split; [reflexivity |].
  split; [apply lookup_after_emit |].
  split; [apply lookup_after_emit |].
  intros ->. reflexivity.
Qed.

(** *** The URIs of the activities *)

Lemma hex_length (w : nat) (n : N) : length (hex w n) = w.
Proof.
  revert n. induction w as [| w IH]; intros n; simpl; [reflexivity |].
  rewrite length_app, IH. simpl. lia.
Qed.

Lemma hex_char_inj (a b : N) :
  (a < 16)%N -> (b < 16)%N -> hex_char a = hex_char b -> a = b.
Proof.
  unfold hex_char. intros Ha Hb.
  destruct (N.ltb_spec a 10), (N.ltb_spec b 10); lia.
Qed.

Lemma hex_inj (w : nat) (n m : N) :
  (n < 16 ^ N.of_nat w)%N -> (m < 16 ^ N.of_nat w)%N ->
  hex w n = hex w m -> n = m.
Proof.
  revert n m. induction w as [| w IH]; intros n m Hn Hm H.
  - simpl in Hn, Hm. lia.
  - rewrite Nat2N.inj_succ, N.pow_succ_r' in Hn, Hm.
    cbn [hex] in H. apply app_inj_tail in H. destruct H as [Hhi Hlo].
    apply hex_char_inj in Hlo; try (apply N.mod_lt; lia).
    apply IH in Hhi; try (apply N.Div0.div_lt_upper_bound; lia).
    rewrite (N.div_mod n 16), (N.div_mod m 16) by lia. now rewrite Hhi, Hlo.
Qed.

(** The digits of a UUID text, without the hyphens. *)
Definition ungroup (s : str) : str :=
  take 8 s ++ take 4 (drop 9 s) ++ take 4 (drop 14 s) ++ take 4 (drop 19 s) ++
  drop 24 s.

Lemma ungroup_uuid_str (x : UUID) : ungroup (uuid_str x) = hex 32 (uuid_int x).
Proof.
  unfold uuid_str. pose proof (hex_length 32 (uuid_int x)) as Hlen.
  generalize dependent (hex 32 (uuid_int x)). intros h Hlen.
  do 33 (destruct h as [| ? h]; [discriminate Hlen || reflexivity |]).
  discriminate Hlen.
Qed.

Lemma uuid_str_length (x : UUID) : length (uuid_str x) = 36%nat.
Proof.
  unfold uuid_str. pose proof (hex_length 32 (uuid_int x)) as Hlen.
  generalize dependent (hex 32 (uuid_int x)). intros h Hlen.
  do 33 (destruct h as [| ? h]; [discriminate Hlen || reflexivity |]).
  discriminate Hlen.
Qed.

Lemma uuid_str_inj (x y : UUID) :
  (uuid_int x < 2 ^ 128)%N -> (uuid_int y < 2 ^ 128)%N ->
  uuid_str x = uuid_str y -> x = y.
Proof.
  intros Hx Hy H.
  assert (Hh : hex 32 (uuid_int x) = hex 32 (uuid_int y))
    by (rewrite <- !ungroup_uuid_str; now rewrite H).
  apply hex_inj in Hh; [destruct x, y; simpl in Hh; now subst | |];
    change (16 ^ N.of_nat 32)%N with (2 ^ 128)%N; assumption.
Qed.

(** The first [n] draws are 128-bit values, no two of them equal. *)
Definition distinct_draws (n : nat) : Prop :=
  (forall i, (i < n)%nat -> (uuid_int (uuid4_draw i) < 2 ^ 128)%N) /\
  (forall i j, (i < n)%nat -> (j < n)%nat ->
     uuid4_draw i = uuid4_draw j -> i = j).

(** A URI of the shape [https://host/<kind>/<uuid>]: one path segment,
    then the text of a UUID. *)
Definition uuid_shaped (uri : str) : Prop :=
  exists kind x,
    Forall (fun c => c <> 47%N) kind /\
    uri = u "https://" ++ HOST ++ [47%N] ++ kind ++ [47%N] ++ uuid_str x.

(** A lowercase hexadecimal digit. *)
Definition is_hex (c : N) : Prop :=
  (48 <= c <= 57)%N \/ (97 <= c <= 102)%N.

Lemma hex_char_is_hex (d : N) : (d < 16)%N -> is_hex (hex_char d).
Proof.
  unfold is_hex, hex_char. intros Hd. destruct (N.ltb_spec d 10); lia.
Qed.

Lemma hex_is_hex (w : nat) (n : N) : Forall is_hex (hex w n).
Proof.
  revert n. induction w as [| w IH]; intros n; cbn [hex]; [constructor |].
  apply Forall_app. split; [apply IH |].
  constructor; [| constructor]. apply hex_char_is_hex, N.mod_lt. discriminate.
Qed.

(** The text of a UUID starts with two hexadecimal digits. *)
Lemma uuid_str_starts_hex (x : UUID) :
  exists c0 c1 r, uuid_str x = c0 :: c1 :: r /\ is_hex c0 /\ is_hex c1.
Proof.
  unfold uuid_str.
  pose proof (hex_length 32 (uuid_int x)) as Hlen.
  pose proof (hex_is_hex 32 (uuid_int x)) as Hhex.
  destruct (hex 32 (uuid_int x)) as [| c0 [| c1 h]]; try discriminate Hlen.
  inversion Hhex as [| ? ? H0 Hrest]; subst.
  inversion Hrest as [| ? ? H1 _]; subst.
  exists c0, c1. eexists. split; [reflexivity | split; assumption].
Qed.

Lemma first_slash_split (a a' b b' : str) :
  Forall (fun c => c <> 47%N) a -> Forall (fun c => c <> 47%N) a' ->
  a ++ 47%N :: b = a' ++ 47%N :: b' -> a = a' /\ b = b'.
Proof.
  intros Ha. revert a'. induction Ha as [| c a Hc _ IH]; intros a' Ha' H.
  - destruct Ha' as [| c' a' Hc' _]; cbn in H.
    + injection H as <-. auto.
    + injection H as H _. congruence.
  - destruct Ha' as [| c' a' Hc' Ha']; cbn in H.
    + injection H as H _. congruence.
    + injection H as <- H. destruct (IH a' Ha' H) as [<- <-]. auto.
Qed.

(** The URIs of Notes and Creates have that shape. *)
Lemma object_uri_uuid_shaped (k : kind) (x : UUID) : uuid_shaped (object_uri k x).
Proof.
  destruct k; [exists (u "notes"), x | exists (u "creates"), x];
    (split; [vm_compute; repeat (constructor; [discriminate |]); constructor
            | reflexivity]).
Qed.

(** No URI under [/activity/follows/] has it: after the segment
    [activity] comes [follows/...], which is not the text of a UUID. *)
Lemma follows_uri_not_uuid_shaped (suffix : str) :
  ~ uuid_shaped (u "https://" ++ HOST ++ u "/activity/follows/" ++ suffix).
Proof.
  intros (kind & x & Hkind & H).
  apply app_inv_head in H. apply app_inv_head in H.
  assert (Hsplit : u "/activity/follows/" ++ suffix =
                   [47%N] ++ u "activity" ++ 47%N :: (u "follows/" ++ suffix))
    by reflexivity.
  rewrite Hsplit in H. apply app_inv_head in H.
  apply (first_slash_split (u "activity") kind) in H;
    [| vm_compute; repeat (constructor; [discriminate |]); constructor
     | exact Hkind].
  destruct H as [_ H].
  destruct (uuid_str_starts_hex x) as (c0 & c1 & r & Hx & _ & Hc1).
  rewrite Hx in H. cbn in H. injection H as _ <- _.
  unfold is_hex in Hc1. lia.
Qed.

(** C8, amended.  The Note and the Create of a reply (acknowledgement or
    usage help) and of a reminder get the URIs
    [https://host/notes/<uuid>] and [https://host/creates/<uuid>], built
    from the next two draws of [uuid.uuid4()]; such a URI has the shape
    of one path segment and a UUID text of 36 characters, and among draws
    that are distinct 128-bit values, URIs of distinct draws or kinds are
    distinct.  The Accept sent for a Follow gets no such URI: its URI
    lies under [https://host/activity/follows/], which does not have that
    shape, and no UUID is drawn for it. *)
Theorem activity_uri_shapes :
  (forall tr create note text p sender w,
     create_object create = ObjNote note ->
     existsb (is_mention_of actor_uri) (tag note) = true ->
     content note = Some text ->
     parse_reminder (command_text_of text) = Ok p ->
     tr_fetch tr (create_actor create) = Fetched sender ->
     let run := on_create_activity tr (ActCreate create) w in
     exists n c,
       deliveries run.2 = mk_delivery own_keys sender (OutCreate c) :: deliveries w /\
       create_object c = ObjNote n /\
       note_id n = Some (u "https://" ++ HOST ++ u "/notes/" ++
                         uuid_str (uuid4_draw (uuids_drawn w))) /\
       create_id c = Some (u "https://" ++ HOST ++ u "/creates/" ++
                           uuid_str (uuid4_draw (S (uuids_drawn w)))) /\
       ACTIVITY_STORE run.2 !! object_uri KNote (uuid4_draw (uuids_drawn w)) =
         Some (StoredNote n) /\
       ACTIVITY_STORE run.2 !! object_uri KCreate (uuid4_draw (S (uuids_drawn w))) =
         Some (StoredCreate c) /\
       uuids_drawn run.2 = S (S (uuids_drawn w))) /\
  (forall tr delay message target_actor original_note w a,
     refetched tr target_actor = Some a ->
     let run := send_reminder tr delay message target_actor original_note w in
     exists n c,
       deliveries run.2 = mk_delivery own_keys a (OutCreate c) :: deliveries w /\
       create_object c = ObjNote n /\
       note_id n = Some (u "https://" ++ HOST ++ u "/notes/" ++
                         uuid_str (uuid4_draw (uuids_drawn w))) /\
       create_id c = Some (u "https://" ++ HOST ++ u "/creates/" ++
                           uuid_str (uuid4_draw (S (uuids_drawn w)))) /\
       ACTIVITY_STORE run.2 !! object_uri KNote (uuid4_draw (uuids_drawn w)) =
         Some (StoredNote n) /\
       ACTIVITY_STORE run.2 !! object_uri KCreate (uuid4_draw (S (uuids_drawn w))) =
         Some (StoredCreate c) /\
       uuids_drawn run.2 = S (S (uuids_drawn w))) /\
  (forall k x, uuid_shaped (object_uri k x) /\ length (uuid_str x) = 36%nat) /\
  (forall n, distinct_draws n ->
   forall k i k' j, (i < n)%nat -> (j < n)%nat ->
     object_uri k (uuid4_draw i) = object_uri k' (uuid4_draw j) ->
     k = k' /\ i = j) /\
  (forall tr follow follower w,
     tr_fetch tr (RefUri (match follow_actor follow with
                          | RefActor a => actor_id a
                          | RefUri uri => uri
                          end)) = Fetched follower ->
     let run := on_follow_activity tr (ActFollow follow) w in
     exists acc,
       deliveries run.2 =
         mk_delivery own_keys follower (OutAccept acc) :: deliveries w /\
       (exists suffix,
          accept_id acc = u "https://" ++ HOST ++ u "/activity/follows/" ++ suffix) /\
       ~ uuid_shaped (accept_id acc) /\
       uuids_drawn run.2 = uuids_drawn w).
Proof.
  split; [| split; [| split; [| split]]].
  - intros tr create note text p sender w Hobj Hm Ht Hp Hf. cbv zeta.
    rewrite (on_create_outcome tr create note text p sender w) by assumption.
    cbn [snd]. eexists _, _.
    split; [reflexivity |]. split; [reflexivity |].
    split; [reflexivity |]. split; [reflexivity |].
    split; [apply lookup_after_emit |]. split; [apply lookup_after_emit |].
    reflexivity.
  - intros tr delay message target_actor original_note w a Hre. cbv zeta.
    rewrite (send_reminder_outcome tr delay message target_actor original_note
               w a) by assumption.
    cbn [snd]. eexists _, _.
    split; [reflexivity |]. split; [reflexivity |].
    split; [reflexivity |]. split; [reflexivity |].
    split; [apply lookup_after_emit |]. split; [apply lookup_after_emit |].
    reflexivity.
  - intros k x. split; [apply object_uri_uuid_shaped | apply uuid_str_length].
  - intros n [Hbound Hinj] k i k' j Hi Hj H.
    apply object_uri_kind in H. destruct H as [-> H].
    split; [reflexivity |]. apply Hinj; try assumption.
    apply uuid_str_inj; auto.
  - intros tr follow follower w Hf. cbv zeta.
    unfold on_follow_activity, bind, fetch. rewrite Hf, get_keys_own.
    unfold ret, send. cbn [deliveries uuids_drawn].
    exists (mk_Accept
              (u "https://" ++ HOST ++ u "/activity/follows/" ++
               actor_repr follower) actor follow).
    destruct (tr_send tr own_keys follower _); cbn [snd accept_id];
      (split; [reflexivity |]; split; [eexists; reflexivity |];
       split; [apply follows_uri_not_uuid_shaped | reflexivity]).
Qed.

(** *** Keys of the store *)

(** Every value of the two dictionaries sits under its own identifier. *)
Definition keyed_by_id (w : world) : Prop :=
  (forall uri a, ACTIVITY_STORE w !! uri = Some a -> stored_id a = Some uri) /\
  (forall uri a ts, CACHE w !! uri = Some (a, ts) -> stored_id a = Some uri).

(** A computation that keeps [keyed_by_id], however it ends. *)
Definition preserves {A} (m : M A) : Prop :=
  forall w, keyed_by_id w -> keyed_by_id (m w).2.

Lemma preserves_ret {A} (a : A) : preserves (ret a).
Proof. intros w H. exact H. Qed.

Lemma preserves_raise {A} (e : exn) : preserves (@raise A e).
Proof. intros w H. exact H. Qed.

Lemma preserves_lift {A} (r : result A) : preserves (lift r).
Proof. intros w H. exact H. Qed.

Lemma preserves_bind {A B} (m : M A) (k : A -> M B) :
  preserves m -> (forall a, preserves (k a)) -> preserves (bind m k).
Proof.
  intros Hm Hk w H. unfold bind. specialize (Hm w H).
  destruct (m w) as [[a | e] w']; [apply Hk |]; exact Hm.
Qed.

Lemma preserves_uuid4 : preserves uuid4.
Proof. intros w H. exact H. Qed.

Lemma preserves_create_task (t : reminder_task) : preserves (create_task t).
Proof. intros w H. exact H. Qed.

Lemma preserves_send (tr : transport) (keys : list ActorKey) (target : Actor)
    (activity : outgoing) : preserves (send tr keys target activity).
Proof.
  intros w H. unfold send. destruct (tr_send tr keys target activity); exact H.
Qed.

Lemma preserves_fetch (tr : transport) (ref : ActorRef) : preserves (fetch tr ref).
Proof. intros w H. unfold fetch. destruct (tr_fetch tr ref); exact H. Qed.

Lemma preserves_attr {A B} (o : option A) (f : A -> B) : preserves (attr o f).
Proof. intros w H. destruct o; exact H. Qed.

(** The one way the handlers write to the store. *)
Lemma preserves_store_put_by_id (value : stored) :
  preserves (store_put_by_id value).
Proof.
  intros w [Hs Hc]. unfold store_put_by_id.
  destruct (stored_id value) as [key |] eqn:Hid; [| split; assumption].
  split; [| exact Hc].
  intros uri a. cbn [store_put snd ACTIVITY_STORE].
  destruct (decide (uri = key)) as [-> | Hne].
  - rewrite lookup_insert_eq. intros [= <-]. exact Hid.
  - rewrite lookup_insert_ne by congruence. apply Hs.
Qed.

Ltac preserve :=
  repeat first
    [ apply preserves_ret | apply preserves_raise | apply preserves_lift
    | apply preserves_uuid4 | apply preserves_create_task
    | apply preserves_send | apply preserves_fetch | apply preserves_attr
    | apply preserves_store_put_by_id
    | apply preserves_bind; [| intros ?]
    | match goal with
      | |- preserves (match ?x with _ => _ end) => destruct x
      end ].

Lemma preserves_on_create_activity (tr : transport) (activity : Activity) :
  preserves (on_create_activity tr activity).
Proof. unfold on_create_activity. preserve. Qed.

Lemma preserves_on_follow_activity (tr : transport) (activity : Activity) :
  preserves (on_follow_activity tr activity).
Proof. unfold on_follow_activity. preserve. Qed.

Lemma preserves_send_reminder (tr : transport) (delay : timedelta)
    (message : str) (target_actor : Actor) (original_note : Note) :
  preserves (send_reminder tr delay message target_actor original_note).
Proof. unfold send_reminder. preserve. Qed.

Lemma preserves_fetch_endpoint (k : kind) (x : UUID)
    (now_check now_insert : datetime) :
  preserves (fetch_endpoint k x now_check now_insert).
Proof.
  intros w [Hs Hc]. rewrite fetch_endpoint_unfold. cbv zeta.
  assert (Hstore :
    keyed_by_id
      (match ACTIVITY_STORE w !! object_uri k x with
       | Some a =>
           (Ok (ActivityResponse a),
            after_store_hit w (object_uri k x) a now_insert)
       | None => (Ok (Response 404), after_store_miss w)
       end).2).
  { destruct (ACTIVITY_STORE w !! object_uri k x) as [a |] eqn:Hget;
      [| split; assumption].
    split; [exact Hs |].
    intros uri b ts. cbn [snd after_store_hit CACHE].
    destruct (decide (uri = object_uri k x)) as [-> | Hne].
    - rewrite lookup_insert_eq. intros [= <- _]. now apply Hs.
    - rewrite lookup_insert_ne by congruence. apply Hc. }
  destruct (CACHE w !! object_uri k x) as [[a ts] |]; [| exact Hstore].
  destruct (timedelta_lt _ _); [split; assumption | exact Hstore].
Qed.

Lemma step_keyed_by_id (w w' : world) :
  step w w' -> keyed_by_id w -> keyed_by_id w'.
Proof.
  intros Hstep H. destruct Hstep.
  - now apply preserves_on_create_activity.
  - now apply preserves_on_follow_activity.
  - apply preserves_send_reminder. exact H.
  - now apply (preserves_fetch_endpoint KNote).
  - now apply (preserves_fetch_endpoint KCreate).
Qed.

Lemma reachable_keyed_by_id (w : world) : reachable w -> keyed_by_id w.
Proof.
  unfold reachable. intros Hreach.
  assert (H0 : keyed_by_id initial_world).
  { split; intros uri a; [| intros ts]; cbn; rewrite lookup_empty; discriminate. }
  revert H0. induction Hreach as [| w1 w2 w3 Hstep _ IH]; [auto |].
  intros H1. apply IH. now apply (step_keyed_by_id w1).
Qed.

(** What a fetch endpoint answers comes from one of the dictionaries. *)
Lemma fetch_endpoint_answer (k : kind) (x : UUID)
    (now_check now_insert : datetime) (w : world) (a : stored) :
  (fetch_endpoint k x now_check now_insert w).1 = Ok (ActivityResponse a) ->
  ACTIVITY_STORE w !! object_uri k x = Some a \/
  exists ts, CACHE w !! object_uri k x = Some (a, ts).
Proof.
  rewrite fetch_endpoint_unfold. cbv zeta. intros H.
  assert (Hstore :
    (match ACTIVITY_STORE w !! object_uri k x with
     | Some b =>
         (Ok (ActivityResponse b),
          after_store_hit w (object_uri k x) b now_insert)
     | None => (Ok (Response 404), after_store_miss w)
     end).1 = Ok (ActivityResponse a) ->
    ACTIVITY_STORE w !! object_uri k x = Some a).
  { destruct (ACTIVITY_STORE w !! object_uri k x); cbn [fst];
      intros [= ->]; reflexivity. }
  destruct (CACHE w !! object_uri k x) as [[b ts] |]; [| left; now apply Hstore].
  destruct (timedelta_lt _ _); [| left; now apply Hstore].
  cbn [fst] in H. injection H as ->. right. now exists ts.
Qed.

(** C10.  In every state the process reaches from its start, each URI
    present in the store maps to an activity whose [id] is that URI; and a
    fetch of a note or of a create activity only ever answers with an
    activity whose [id] is the URI requested. *)
Theorem store_key_invariant (w : world) :
  reachable w ->
  (forall uri a, ACTIVITY_STORE w !! uri = Some a -> stored_id a = Some uri) /\
  (forall k x now_check now_insert a,
     (fetch_endpoint k x now_check now_insert w).1 = Ok (ActivityResponse a) ->
     stored_id a = Some (object_uri k x)).
Proof.
  intros Hreach. destruct (reachable_keyed_by_id w Hreach) as [Hs Hc].
  split; [exact Hs |].
  intros k x now_check now_insert a Hans.
  apply fetch_endpoint_answer in Hans. destruct Hans as [H | [ts H]].
  - now apply Hs.
  - now apply Hc with ts.
Qed.

(* ===================================================================== *)
(** ** The handlers case by case *)
(* ===================================================================== *)

(** The Create and the Note of an activity that mentions this actor. *)
Definition mentioning_note (activity : Activity) : option (Create * Note) :=
  match activity with
  | ActCreate create =>
      match create_object create with
      | ObjNote note =>
          if existsb (is_mention_of actor_uri) (tag note)
          then Some (create, note)
          else None
      | ObjOther => None
      end
  | _ => None
  end.

(** The state after one call of [uuid.uuid4()] and nothing else. *)
Definition drew_one (w : world) : world :=
  mk_world (ACTIVITY_STORE w) (CACHE w) (S (uuids_drawn w)) (deliveries w)
           (tasks w) (store_reads w).

(** The state after one call of [ctx.send] and nothing else. *)
Definition after_delivery (w : world) (d : delivery) : world :=
  mk_world (ACTIVITY_STORE w) (CACHE w) (uuids_drawn w) (d :: deliveries w)
           (tasks w) (store_reads w).

(** The Note and the Create a handler builds in state [w]. *)
Definition emitted_note (w : world) (in_reply_to : option str) (body : str)
    (recipient : Actor) : Note :=
  note_for (uuid4_draw (uuids_drawn w)) in_reply_to body recipient.

Definition emitted_create (w : world) (in_reply_to : option str) (body : str)
    (recipient : Actor) : Create :=
  create_for (uuid4_draw (S (uuids_drawn w)))
    (emitted_note w in_reply_to body recipient) recipient.

(** The state after that Note and Create were stored and handed over. *)
Definition emitted (w : world) (in_reply_to : option str) (body : str)
    (recipient : Actor) (ts : list reminder_task) : world :=
  after_emit w (uuid4_draw (uuids_drawn w)) (uuid4_draw (S (uuids_drawn w)))
    (emitted_note w in_reply_to body recipient)
    (emitted_create w in_reply_to body recipient) recipient ts.

(** How a handler ends after its delivery. *)
Definition delivered {A} (tr : transport) (recipient : Actor) (c : Create)
    (a : A) : result A :=
  match tr_send tr own_keys recipient (OutCreate c) with
  | None => Ok a
  | Some e => Raise e
  end.

Lemma lookup_emitted_note (w : world) (in_reply_to : option str) (body : str)
    (recipient : Actor) (ts : list reminder_task) :
  ACTIVITY_STORE (emitted w in_reply_to body recipient ts) !!
    object_uri KNote (uuid4_draw (uuids_drawn w)) =
  Some (StoredNote (emitted_note w in_reply_to body recipient)).
Proof. unfold emitted. exact (proj1 (lookup_after_emit _ _ _ _ _ _ _)). Qed.

Lemma lookup_emitted_create (w : world) (in_reply_to : option str) (body : str)
    (recipient : Actor) (ts : list reminder_task) :
  ACTIVITY_STORE (emitted w in_reply_to body recipient ts) !!
    object_uri KCreate (uuid4_draw (S (uuids_drawn w))) =
  Some (StoredCreate (emitted_create w in_reply_to body recipient)).
Proof. unfold emitted. exact (proj2 (lookup_after_emit _ _ _ _ _ _ _)). Qed.

Lemma strip_default_nonempty : strip DEFAULT_MESSAGE = DEFAULT_MESSAGE.
Proof. vm_compute. reflexivity. Qed.

Lemma parse_reminder_message_nonempty (text : str) (delay : option timedelta)
    (message : str) (time_str : option str) :
  parse_reminder text = Ok (delay, Some message, time_str) -> message <> [].
Proof.
  unfold parse_reminder.
  destruct (pattern_search text) as [[[value unt] msg] |]; [| discriminate].
  destruct (int value) as [v | e]; [| discriminate]. cbn [rbind].
  assert (Hfinish : forall r : result timedelta,
    rbind r (fun delta =>
      Ok (Some delta,
          Some (strip match strip msg with [] => DEFAULT_MESSAGE | _ => msg end),
          Some (str_of_int v ++ lower unt))) = Ok (delay, Some message, time_str) ->
    message <> []).
  { intros [d | e]; [| discriminate]. cbn [rbind]. intros [= _ <- _].
    destruct (strip msg) eqn:E; [rewrite strip_default_nonempty |rewrite E];
      discriminate. }
  repeat destruct (decide _); try discriminate; apply Hfinish.
Qed.

(** [on_create_activity] by cases: an activity that does not mention this
    actor, a Note without text, a command the parser raises on, a sender
    the fetch raises on or returns a false value for, and the reply. *)
Lemma on_create_activity_unfold (tr : transport) (activity : Activity)
    (w : world) :
  on_create_activity tr activity w =
    match mentioning_note activity with
    | None => (Ok (Response 202), w)
    | Some (create, note) =>
        match content note with
        | None => (Raise TypeError, w)
        | Some text =>
            match parse_reminder (command_text_of text) with
            | Raise e => (Raise e, w)
            | Ok p =>
                match tr_fetch tr (create_actor create) with
                | FetchRaised e => (Raise e, w)
                | FetchedNone => (Raise AttributeError, drew_one w)
                | Fetched sender =>
                    let body := reply_body p sender note in
                    (delivered tr sender
                       (emitted_create w (note_id note) body sender)
                       (Response 202),
                     emitted w (note_id note) body sender
                       (match scheduled p sender note with
                        | Some t => t :: tasks w
                        | None => tasks w
                        end))
                end
            end
        end
    end.
Proof.
  unfold mentioning_note.
  destruct activity as [create | follow |]; try reflexivity.
  destruct (create_object create) as [note |] eqn:Hobj;
    [| unfold on_create_activity; now rewrite Hobj].
  destruct (existsb (is_mention_of actor_uri) (tag note)) eqn:Hm;
    [| unfold on_create_activity; rewrite Hobj;
       change (app_id actor) with actor_uri; now rewrite Hm].
  destruct (content note) as [text |] eqn:Ht;
    [| unfold on_create_activity; rewrite Hobj;
       change (app_id actor) with actor_uri; now rewrite Hm, Ht].
  destruct (parse_reminder (command_text_of text)) as [p | e] eqn:Hp;
    [| unfold on_create_activity; rewrite Hobj;
       change (app_id actor) with actor_uri; rewrite Hm, Ht; cbn [negb];
       unfold bind, ret, lift; now rewrite Hp].
  destruct (tr_fetch tr (create_actor create)) as [sender | | e] eqn:Hf.
  - apply (on_create_outcome tr create note text p sender w); assumption.
  - unfold on_create_activity. rewrite Hobj.
    change (app_id actor) with actor_uri. rewrite Hm, Ht. cbn [negb].
    unfold bind at 1. unfold ret at 1. unfold bind at 1. unfold lift.
    rewrite Hp. destruct p as [[delay message] time_str].
    unfold bind at 1. unfold fetch. rewrite Hf. unfold ret at 1.
    destruct delay as [delay |]; [destruct message as [[| ch m] |] |];
      reflexivity.
  - unfold on_create_activity. rewrite Hobj.
    change (app_id actor) with actor_uri. rewrite Hm, Ht. cbn [negb].
    unfold bind at 1. unfold ret at 1. unfold bind at 1. unfold lift.
    rewrite Hp. destruct p as [[delay message] time_str].
    unfold bind at 1. unfold fetch. now rewrite Hf.
Qed.

(** [send_reminder] by cases on the actor it goes on with. *)
Lemma send_reminder_unfold (tr : transport) (delay : timedelta)
    (message : str) (target_actor : Actor) (original_note : Note) (w : world) :
  send_reminder tr delay message target_actor original_note w =
    match refetched tr target_actor with
    | None => (Raise AttributeError, w)
    | Some a =>
        let body := reminder_content a message in
        (delivered tr a (emitted_create w (note_id original_note) body a) tt,
         emitted w (note_id original_note) body a (tasks w))
    end.
Proof.
  destruct (refetched tr target_actor) as [a |] eqn:Hre.
  - apply (send_reminder_outcome tr delay message target_actor original_note
             w a Hre).
  - unfold send_reminder. fold (refetched tr target_actor). now rewrite Hre.
Qed.

(** The URI [on_follow_activity] fetches the follower from. *)
Definition follower_uri (follow : Follow) : str :=
  match follow_actor follow with
  | RefActor a => actor_id a
  | RefUri uri => uri
  end.

(** The Accept for a Follow by a resolved follower. *)
Definition accept_for (follow : Follow) (follower : Actor) : Accept :=
  mk_Accept
    (u "https://" ++ HOST ++ u "/activity/follows/" ++ actor_repr follower)
    actor follow.

(** [on_follow_activity] by cases. *)
Lemma on_follow_activity_unfold (tr : transport) (activity : Activity)
    (w : world) :
  on_follow_activity tr activity w =
    match activity with
    | ActFollow follow =>
        match tr_fetch tr (RefUri (follower_uri follow)) with
        | FetchRaised e => (Raise e, w)
        | FetchedNone => (Ok (Response 400), w)
        | Fetched follower =>
            let d := mk_delivery own_keys follower
                       (OutAccept (accept_for follow follower)) in
            (match tr_send tr own_keys follower
                     (OutAccept (accept_for follow follower)) with
             | None => Ok (Response 202)
             | Some e => Raise e
             end,
             after_delivery w d)
        end
    | _ => (Ok (Response 400), w)
    end.
Proof.
  destruct activity as [create | follow |]; try reflexivity.
  unfold on_follow_activity, bind, fetch.
  fold (follower_uri follow).
  destruct (tr_fetch tr (RefUri (follower_uri follow))) as [a | | e];
    try reflexivity.
  rewrite get_keys_own. unfold ret, send, after_delivery, accept_for.
  destruct (tr_send tr own_keys a _); reflexivity.
Qed.

Lemma existsb_false_Forall {A} (f : A -> bool) (l : list A) :
  Forall (fun a => f a = false) l -> existsb f l = false.
Proof.
  induction 1 as [| a l Ha _ IH]; simpl; [reflexivity |]. now rewrite Ha.
Qed.

(** X4.  An activity that is no Create, or whose object is no Note, or whose
    Note carries no Mention of this actor, is answered 202 and leaves the
    state as it was, whatever the transport would do. *)
Theorem on_create_activity_ignores (tr : transport) (activity : Activity)
    (w : world) :
  (forall create, activity = ActCreate create ->
     create_object create = ObjOther \/
     exists note, create_object create = ObjNote note /\
       Forall (fun t => is_mention_of actor_uri t = false) (tag note)) ->
  on_create_activity tr activity w = (Ok (Response 202), w).
Proof.
  intros H. rewrite on_create_activity_unfold. unfold mentioning_note.
  destruct activity as [create | follow |]; try reflexivity.
  destruct (H create eq_refl) as [-> | (note & -> & Hno)]; [reflexivity |].
  now rewrite (existsb_false_Forall _ _ Hno).
Qed.

(** X5.  When the handler of a Create raises, either the state is as it was
    but for at most one UUID drawn (nothing stored, handed to the
    transport or scheduled), or the exception is the one the delivery of
    the reply raised. *)
Theorem on_create_activity_raises (tr : transport) (activity : Activity)
    (w : world) (e : exn) :
  (on_create_activity tr activity w).1 = Raise e ->
  let w' := (on_create_activity tr activity w).2 in
  (ACTIVITY_STORE w' = ACTIVITY_STORE w /\ CACHE w' = CACHE w /\
   deliveries w' = deliveries w /\ tasks w' = tasks w) \/
  (exists d, deliveries w' = d :: deliveries w /\
     tr_send tr (d_keys d) (d_target d) (d_activity d) = Some e).
Proof.
  rewrite on_create_activity_unfold. cbv zeta.
  destruct (mentioning_note activity) as [[create note] |]; [| discriminate].
  destruct (content note) as [text |]; [| intros _; left; repeat split].
  destruct (parse_reminder (command_text_of text)) as [p | e0];
    [| intros _; left; repeat split].
  destruct (tr_fetch tr (create_actor create)) as [sender | | e0];
    [| intros _; left; repeat split | intros _; left; repeat split].
  cbn [fst snd]. unfold delivered. intros H. right. eexists. split; [reflexivity |].
  cbn [d_keys d_target d_activity].
  destruct (tr_send tr own_keys sender _) as [e1 |]; [| discriminate].
  now injection H as ->.
Qed.

(** X6.  A mention whose command parses to a delay other than zero, from a
    sender the transport resolves: the handler creates exactly one
    reminder task, with the parsed delay and message, for the sender and
    the incoming Note; stores the acknowledgement Note and its Create;
    hands that one Create, whose Note names the time text, to the
    transport; and answers 202 unless the delivery raises. *)
Theorem on_create_activity_acknowledges (tr : transport) (create : Create)
    (note : Note) (text : str) (delay : timedelta) (message time_str : str)
    (sender : Actor) (w : world) :
  create_object create = ObjNote note ->
  existsb (is_mention_of actor_uri) (tag note) = true ->
  content note = Some text ->
  parse_reminder (command_text_of text) =
    Ok (Some delay, Some message, Some time_str) ->
  timedelta_bool delay = true ->
  tr_fetch tr (create_actor create) = Fetched sender ->
  let body := ACK_PREFIX ++ time_str ++ u ".</p>" in
  let n := emitted_note w (note_id note) body sender in
  let c := emitted_create w (note_id note) body sender in
  let run := on_create_activity tr (ActCreate create) w in
  tasks run.2 = mk_task delay message sender note :: tasks w /\
  deliveries run.2 = mk_delivery own_keys sender (OutCreate c) :: deliveries w /\
  create_object c = ObjNote n /\
  content n = Some body /\ inReplyTo n = note_id note /\
  note_to n = [actor_id sender] /\
  ACTIVITY_STORE run.2 !! object_uri KNote (uuid4_draw (uuids_drawn w)) =
    Some (StoredNote n) /\
  ACTIVITY_STORE run.2 !! object_uri KCreate (uuid4_draw (S (uuids_drawn w))) =
    Some (StoredCreate c) /\
  (tr_send tr own_keys sender (OutCreate c) = None ->
   run.1 = Ok (Response 202)).
Proof.
  intros Hobj Hm Ht Hp Hd Hf. cbv zeta.
  pose proof (parse_reminder_message_nonempty _ _ _ _ Hp) as Hne.
  rewrite on_create_activity_unfold. unfold mentioning_note.
  rewrite Hobj, Hm, Ht, Hp, Hf. cbv zeta.
  destruct message as [| ch m]; [congruence |].
  unfold reply_body, scheduled. rewrite Hd. cbn [fst snd format_opt].
  split; [reflexivity |]. split; [reflexivity |].
  split; [reflexivity |]. split; [reflexivity |].
  split; [reflexivity |]. split; [reflexivity |].
  split; [exact (lookup_emitted_note _ _ _ _ _) |].
  split; [exact (lookup_emitted_create _ _ _ _ _) |].
  unfold delivered. intros ->. reflexivity.
Qed.

(** X7.  A mention whose command parses to a delay of zero is treated like one
    that does not parse: the reply holds the usage help and no reminder
    task is created. *)
Theorem zero_delay_gets_usage_help (tr : transport) (create : Create)
    (note : Note) (text : str) (delay : timedelta)
    (message time_str : option str) (sender : Actor) (w : world) :
  create_object create = ObjNote note ->
  existsb (is_mention_of actor_uri) (tag note) = true ->
  content note = Some text ->
  parse_reminder (command_text_of text) = Ok (Some delay, message, time_str) ->
  timedelta_bool delay = false ->
  tr_fetch tr (create_actor create) = Fetched sender ->
  let c := emitted_create w (note_id note) USAGE_HELP sender in
  let run := on_create_activity tr (ActCreate create) w in
  tasks run.2 = tasks w /\
  deliveries run.2 = mk_delivery own_keys sender (OutCreate c) :: deliveries w.
Proof.
  intros Hobj Hm Ht Hp Hd Hf. cbv zeta.
  rewrite on_create_activity_unfold. unfold mentioning_note.
  rewrite Hobj, Hm, Ht, Hp, Hf. cbv zeta.
  unfold reply_body, scheduled. rewrite Hd.
  destruct message as [[| ch m] |]; split; reflexivity.
Qed.

(** X8.  The handler of a Follow.  An activity that is no Follow and a
    follower the fetch returns a false value for are answered 400 with
    the state as it was; a fetch that raises ends the handler with that
    exception and the state as it was.  For a resolved follower exactly
    one Accept, by this actor and for that Follow, is handed to the
    transport with this actor's key; the store, the cache, the pending
    tasks and the UUIDs drawn stay as they were; the answer is 202 unless
    the delivery raises. *)
Theorem on_follow_activity_answers (tr : transport) (activity : Activity)
    (w : world) :
  let run := on_follow_activity tr activity w in
  ((forall follow, activity <> ActFollow follow) ->
   run = (Ok (Response 400), w)) /\
  (forall follow,
     activity = ActFollow follow ->
     tr_fetch tr (RefUri (follower_uri follow)) = FetchedNone ->
     run = (Ok (Response 400), w)) /\
  (forall follow e,
     activity = ActFollow follow ->
     tr_fetch tr (RefUri (follower_uri follow)) = FetchRaised e ->
     run = (Raise e, w)) /\
  (forall follow follower,
     activity = ActFollow follow ->
     tr_fetch tr (RefUri (follower_uri follow)) = Fetched follower ->
     exists acc,
       deliveries run.2 =
         mk_delivery own_keys follower (OutAccept acc) :: deliveries w /\
       accept_actor acc = actor /\ accept_object acc = follow /\
       ACTIVITY_STORE run.2 = ACTIVITY_STORE w /\ CACHE run.2 = CACHE w /\
       tasks run.2 = tasks w /\ uuids_drawn run.2 = uuids_drawn w /\
       (tr_send tr own_keys follower (OutAccept acc) = None ->
        run.1 = Ok (Response 202))).
Proof.
  cbv zeta. rewrite on_follow_activity_unfold.
  split; [| split; [| split]].
  - intros Hno. destruct activity as [c | follow |]; try reflexivity.
    now destruct (Hno follow).
  - intros follow -> Hf. now rewrite Hf.
  - intros follow e -> Hf. now rewrite Hf.
  - intros follow follower -> Hf. rewrite Hf. cbv zeta. cbn [fst snd].
    exists (accept_for follow follower).
    repeat (split; [reflexivity |]). intros ->. reflexivity.
Qed.

(** X9.  The re-fetch of a fired reminder.  When it returns an actor, the Note
    and the Create are built for and handed over for that actor, not the
    one the task was created with.  When it returns a false value, the
    task ends with [AttributeError] and the state is as it was before the
    task fired: nothing is stored or handed to the transport. *)
Theorem send_reminder_refetch (tr : transport) (delay : timedelta)
    (message : str) (target_actor : Actor) (original_note : Note) (w : world) :
  let run := send_reminder tr delay message target_actor original_note w in
  (forall fresh,
     tr_fetch tr (RefUri (actor_id target_actor)) = Fetched fresh ->
     let body := reminder_content fresh message in
     let n := emitted_note w (note_id original_note) body fresh in
     let c := emitted_create w (note_id original_note) body fresh in
     deliveries run.2 = mk_delivery own_keys fresh (OutCreate c) :: deliveries w /\
     create_object c = ObjNote n /\
     note_to n = [actor_id fresh] /\
     inReplyTo n = note_id original_note /\
     ACTIVITY_STORE run.2 !! object_uri KNote (uuid4_draw (uuids_drawn w)) =
       Some (StoredNote n) /\
     ACTIVITY_STORE run.2 !! object_uri KCreate (uuid4_draw (S (uuids_drawn w))) =
       Some (StoredCreate c)) /\
  (tr_fetch tr (RefUri (actor_id target_actor)) = FetchedNone ->
   run = (Raise AttributeError, w)).
Proof.
  cbv zeta. rewrite send_reminder_unfold. unfold refetched. split.
  - intros fresh ->. cbv zeta. cbn [fst snd].
    repeat (split; [reflexivity |]).
    split; [exact (lookup_emitted_note _ _ _ _ _)
          | exact (lookup_emitted_create _ _ _ _ _)].
  - intros ->. reflexivity.
Qed.

(* ===================================================================== *)
(** ** What holds in every state the process reaches *)
(* ===================================================================== *)

(** The acknowledgement of a reminder task: a delivery for the task's
    target of a Create whose Note answers the task's Note and holds an
    acknowledgement text. *)
Definition acknowledges (d : delivery) (t : reminder_task) : Prop :=
  d_target d = task_target t /\
  exists c n time_str,
    d_activity d = OutCreate c /\
    create_object c = ObjNote n /\
    inReplyTo n = note_id (task_note t) /\
    content n = Some (ACK_PREFIX ++ time_str ++ u ".</p>").

(** The shapes one step of the process can take. *)
Inductive step_shape (w : world) : world -> Prop :=
  | shape_same : step_shape w w
  | shape_drew : step_shape w (drew_one w)
  | shape_accept follower acc :
      step_shape w
        (after_delivery w (mk_delivery own_keys follower (OutAccept acc)))
  | shape_cached uri a t :
      ACTIVITY_STORE w !! uri = Some a ->
      step_shape w (after_store_hit w uri a t)
  | shape_missed : step_shape w (after_store_miss w)
  | shape_help in_reply_to body recipient :
      step_shape w (emitted w in_reply_to body recipient (tasks w))
  | shape_scheduled t time_str :
      timedelta_bool (task_delay t) = true ->
      task_message t <> [] ->
      step_shape w
        (emitted w (note_id (task_note t))
           (ACK_PREFIX ++ time_str ++ u ".</p>") (task_target t)
           (t :: tasks w))
  | shape_fired t before after :
      tasks w = before ++ t :: after ->
      step_shape w (with_tasks w (before ++ after))
  | shape_reminded t before after body recipient :
      tasks w = before ++ t :: after ->
      step_shape w
        (emitted (with_tasks w (before ++ after)) (note_id (task_note t)) body
           recipient (before ++ after)).

Lemma step_has_shape (w w' : world) : step w w' -> step_shape w w'.
Proof.
  intros Hstep. destruct Hstep as
    [tr activity | tr activity | tr t before after Htasks
    | x now_check now_insert | x now_check now_insert].
  - rewrite on_create_activity_unfold.
    destruct (mentioning_note activity) as [[create note] |];
      [| apply shape_same].
    destruct (content note) as [text |]; [| apply shape_same].
    destruct (parse_reminder (command_text_of text)) as [p | e] eqn:Hp;
      [| apply shape_same].
    destruct (tr_fetch tr (create_actor create)) as [sender | | e];
      [| apply shape_drew | apply shape_same].
    cbv zeta. cbn [snd]. unfold reply_body.
    destruct (scheduled p sender note) as [t |] eqn:Hsch; [| apply shape_help].
    destruct p as [[[delay |] [[| ch m] |]] time_str]; try discriminate Hsch.
    cbn [scheduled] in Hsch.
    destruct (timedelta_bool delay) eqn:Hd; [| discriminate Hsch].
    injection Hsch as <-. cbn [snd].
    apply (shape_scheduled w (mk_task delay (ch :: m) sender note)
             (format_opt time_str)); [exact Hd | discriminate].
  - rewrite on_follow_activity_unfold.
    destruct activity as [c | follow |]; try apply shape_same.
    destruct (tr_fetch tr (RefUri (follower_uri follow))) as [a | | e];
      [apply shape_accept | apply shape_same | apply shape_same].
  - rewrite send_reminder_unfold.
    destruct (refetched tr (task_target t)) as [a |].
    + cbv zeta. cbn [snd]. now apply shape_reminded.
    + now apply (shape_fired w t).
  - change (get_note_endpoint x now_check now_insert w)
      with (fetch_endpoint KNote x now_check now_insert w).
    rewrite fetch_endpoint_unfold. cbv zeta.
    destruct (CACHE w !! object_uri KNote x) as [[a ts] |];
      [destruct (timedelta_lt _ _); [apply shape_same |] |];
      destruct (ACTIVITY_STORE w !! object_uri KNote x) eqn:Hs;
      (now apply shape_cached) || apply shape_missed.
  - change (get_create_endpoint x now_check now_insert w)
      with (fetch_endpoint KCreate x now_check now_insert w).
    rewrite fetch_endpoint_unfold. cbv zeta.
    destruct (CACHE w !! object_uri KCreate x) as [[a ts] |];
      [destruct (timedelta_lt _ _); [apply shape_same |] |];
      destruct (ACTIVITY_STORE w !! object_uri KCreate x) eqn:Hs;
      (now apply shape_cached) || apply shape_missed.
Qed.

(** An induction principle for the reachable states. *)
Lemma reachable_ind_shape (P : world -> Prop) :
  P initial_world ->
  (forall w w', reachable w -> P w -> step_shape w w' -> P w') ->
  forall w, reachable w -> P w.
Proof.
  intros H0 Hstep. unfold reachable. apply rtc_ind_r; [exact H0 |].
  intros w1 w2 Hrtc Hs IH.
  apply (Hstep w1 w2); [exact Hrtc | exact IH | now apply step_has_shape].
Qed.

Lemma In_without (A : Type) (x t : A) (before after : list A) :
  In x (before ++ after) -> In x (before ++ t :: after).
Proof.
  rewrite !in_app_iff. intros [H | H]; [now left | right; now right].
Qed.

(** X10.  Every pending reminder task has a delay other than zero and a message
    that is not empty, and its acknowledgement was handed to the
    transport before: a reminder can only fire after the reply that
    announces it. *)
Theorem reminder_follows_acknowledgement (w : world) :
  reachable w ->
  forall t, In t (tasks w) ->
    timedelta_bool (task_delay t) = true /\
    task_message t <> [] /\
    exists d, In d (deliveries w) /\ acknowledges d t.
Proof.
  intros Hreach. pattern w. revert w Hreach. apply reachable_ind_shape.
  - intros t [].
  - intros w w' _ IH Hshape.
    assert (Hgrow : forall t,
      In t (tasks w) ->
      forall d0, timedelta_bool (task_delay t) = true /\
        task_message t <> [] /\
        exists d, In d (d0 :: deliveries w) /\ acknowledges d t).
    { intros t Ht d0. destruct (IH t Ht) as (H1 & H2 & d & Hd & Hack).
      repeat split; try assumption. exists d. split; [now right | exact Hack]. }
    destruct Hshape as
      [ | | follower acc | uri a ts Hs | | in_reply_to body recipient
      | t0 time_str Hd Hm | t0 before after Ht0
      | t0 before after body recipient Ht0];
      cbn [emitted after_emit after_delivery drew_one after_store_hit
           after_store_miss with_tasks tasks deliveries];
      try exact IH; try (intros t Ht; now apply Hgrow).
    + intros t [<- | Ht]; [| now apply Hgrow].
      repeat split; try assumption.
      eexists. split; [now left |].
      split; [reflexivity |]. cbn [d_activity].
      eexists _, _, time_str. repeat split.
    + intros t Ht. apply IH. rewrite Ht0. now apply In_without.
    + intros t Ht. apply Hgrow. rewrite Ht0. now apply In_without.
Qed.

(** X11.  Every delivery the process hands to the transport carries one
    signing key, this actor's main key with the private key of the
    process; and the key retrieval function hands that key out for this
    actor's URI only. *)
Theorem deliveries_signed_with_own_key (w : world) :
  reachable w ->
  (forall d, In d (deliveries w) ->
     d_keys d = [mk_ActorKey (key_id (app_publicKey actor)) private_key]) /\
  (forall identifier,
     identifier <> actor_uri -> get_keys_for_actor identifier = []) /\
  get_keys_for_actor actor_uri =
    [mk_ActorKey (key_id (app_publicKey actor)) private_key].
Proof.
  intros Hreach. split; [| split].
  - pattern w. revert w Hreach. apply reachable_ind_shape.
    + intros d [].
    + intros w w' _ IH Hshape.
      destruct Hshape;
        cbn [emitted after_emit after_delivery drew_one after_store_hit
             after_store_miss with_tasks tasks deliveries];
        try exact IH;
        intros d [<- | Hd]; try reflexivity; now apply IH.
  - intros identifier Hne. unfold get_keys_for_actor.
    now rewrite decide_False by exact Hne.
  - unfold get_keys_for_actor. now rewrite decide_True by reflexivity.
Qed.

(** *** The store under distinct UUIDs *)

(** [uri] was built from one of the first [n] draws of [uuid.uuid4()]. *)
Definition from_draws (n : nat) (uri : str) : Prop :=
  exists k i, (i < n)%nat /\ uri = object_uri k (uuid4_draw i).

(** The keys of both dictionaries were built from draws made so far. *)
Definition keys_from_draws (w : world) : Prop :=
  (forall uri a, ACTIVITY_STORE w !! uri = Some a ->
     from_draws (uuids_drawn w) uri) /\
  (forall uri a ts, CACHE w !! uri = Some (a, ts) ->
     from_draws (uuids_drawn w) uri).

(** Every entry of the cache is the entry of the store under its key. *)
Definition cache_agrees (w : world) : Prop :=
  forall uri a ts, CACHE w !! uri = Some (a, ts) ->
    ACTIVITY_STORE w !! uri = Some a.

Lemma from_draws_mono (n m : nat) (uri : str) :
  (n <= m)%nat -> from_draws n uri -> from_draws m uri.
Proof. intros Hle (k & i & Hi & ->). exists k, i. split; [lia | reflexivity]. Qed.

Lemma distinct_draws_mono (n m : nat) :
  (n <= m)%nat -> distinct_draws m -> distinct_draws n.
Proof.
  intros Hle [Hb Hd]. split.
  - intros i Hi. apply Hb. lia.
  - intros i j Hi Hj. apply Hd; lia.
Qed.

Lemma step_shape_draws (w w' : world) :
  step_shape w w' -> (uuids_drawn w <= uuids_drawn w')%nat.
Proof. intros H. destruct H; cbn; lia. Qed.

Lemma rtc_step_draws (w w' : world) :
  rtc step w w' -> (uuids_drawn w <= uuids_drawn w')%nat.
Proof.
  induction 1 as [| w1 w2 w3 Hs _ IH]; [lia |].
  apply step_has_shape, step_shape_draws in Hs. lia.
Qed.

(** X12.  Among distinct draws, the URIs of records are distinct. *)
Theorem object_uris_distinct (n : nat) (k k' : kind) (i j : nat) :
  distinct_draws n -> (i < n)%nat -> (j < n)%nat ->
  object_uri k (uuid4_draw i) = object_uri k' (uuid4_draw j) ->
  k = k' /\ i = j.
Proof.
  intros [Hb Hd] Hi Hj H. apply object_uri_kind in H. destruct H as [-> H].
  split; [reflexivity |]. apply Hd; try assumption.
  apply uuid_str_inj; auto.
Qed.

Lemma lookup_emitted_old (w : world) (in_reply_to : option str) (body : str)
    (recipient : Actor) (ts : list reminder_task) (uri : str) :
  from_draws (uuids_drawn w) uri ->
  distinct_draws (S (S (uuids_drawn w))) ->
  ACTIVITY_STORE (emitted w in_reply_to body recipient ts) !! uri =
  ACTIVITY_STORE w !! uri.
Proof.
  intros (k & i & Hi & ->) [Hb Hd].
  cbn [emitted after_emit ACTIVITY_STORE].
  rewrite !lookup_insert_ne; [reflexivity | |];
    intros H; apply object_uri_kind in H; destruct H as [_ H];
    apply uuid_str_inj in H; try (apply Hb; lia);
    apply Hd in H; lia.
Qed.

Lemma keys_from_draws_emitted (w : world) (in_reply_to : option str)
    (body : str) (recipient : Actor) (ts : list reminder_task) :
  keys_from_draws w ->
  keys_from_draws (emitted w in_reply_to body recipient ts).
Proof.
  intros [Hs Hc]. split; cbn [emitted after_emit ACTIVITY_STORE CACHE uuids_drawn].
  - intros uri a.
    destruct (decide (uri = object_uri KCreate (uuid4_draw (S (uuids_drawn w)))))
      as [-> | Hne1].
    { intros _. exists KCreate, (S (uuids_drawn w)). split; [lia | reflexivity]. }
    rewrite lookup_insert_ne by congruence.
    destruct (decide (uri = object_uri KNote (uuid4_draw (uuids_drawn w))))
      as [-> | Hne2].
    { intros _. exists KNote, (uuids_drawn w). split; [lia | reflexivity]. }
    rewrite lookup_insert_ne by congruence.
    intros H. apply Hs in H. eapply from_draws_mono; [| exact H]. lia.
  - intros uri a t H. apply Hc in H. eapply from_draws_mono; [| exact H]. lia.
Qed.

Lemma step_shape_keys_from_draws (w w' : world) :
  step_shape w w' -> keys_from_draws w -> keys_from_draws w'.
Proof.
  intros Hshape Hk. pose proof Hk as [Hs Hc].
  destruct Hshape as
    [ | | follower acc | uri a ts Hget | | in_reply_to body recipient
    | t0 time_str Hd Hm | t0 before after Ht0
    | t0 before after body recipient Ht0];
    try exact Hk; try (now apply keys_from_draws_emitted).
  - split; cbn [drew_one ACTIVITY_STORE CACHE uuids_drawn].
    + intros uri a H. apply Hs in H. eapply from_draws_mono; [| exact H]. lia.
    + intros uri a ts H. apply Hc in H. eapply from_draws_mono; [| exact H]. lia.
  - split; cbn [after_store_hit ACTIVITY_STORE CACHE uuids_drawn];
      [exact Hs |].
    intros uri' b t.
    destruct (decide (uri' = uri)) as [-> | Hne].
    + intros _. now apply Hs with a.
    + rewrite lookup_insert_ne by congruence. apply Hc.
Qed.

Lemma reachable_keys_from_draws (w : world) :
  reachable w -> keys_from_draws w.
Proof.
  intros Hreach. pattern w. revert w Hreach. apply reachable_ind_shape.
  - split; intros uri a; [| intros ts]; cbn; rewrite lookup_empty; discriminate.
  - intros w w' _ IH Hshape. now apply (step_shape_keys_from_draws w).
Qed.

Lemma step_shape_keeps_entries (w w' : world) (uri : str) (a : stored) :
  step_shape w w' -> keys_from_draws w -> distinct_draws (uuids_drawn w') ->
  ACTIVITY_STORE w !! uri = Some a -> ACTIVITY_STORE w' !! uri = Some a.
Proof.
  intros Hshape [Hs _] Hdist Hget.
  destruct Hshape; try exact Hget;
    rewrite lookup_emitted_old; try exact Hget; try exact Hdist;
    now apply Hs with a.
Qed.

Lemma step_shape_cache_agrees (w w' : world) :
  step_shape w w' -> keys_from_draws w -> distinct_draws (uuids_drawn w') ->
  cache_agrees w -> cache_agrees w'.
Proof.
  intros Hshape Hk Hdist Hagree. pose proof Hk as [Hs Hc].
  destruct Hshape as
    [ | | follower acc | uri a ts Hget | | in_reply_to body recipient
    | t0 time_str Hd Hm | t0 before after Ht0
    | t0 before after body recipient Ht0];
    try exact Hagree;
    try (intros uri' b t Hb; rewrite lookup_emitted_old;
         [ apply (Hagree uri' b t); exact Hb
         | apply (Hc uri' b t); exact Hb
         | exact Hdist ]).
  intros uri' b t. cbn [after_store_hit ACTIVITY_STORE CACHE].
  destruct (decide (uri' = uri)) as [-> | Hne].
  - rewrite lookup_insert_eq. intros [= <- _]. exact Hget.
  - rewrite lookup_insert_ne by congruence. apply Hagree.
Qed.

(** X13.  With distinct UUIDs an entry of the store is never replaced or
    removed: what a reachable state holds under a URI, every later state
    holds under it too. *)
Theorem stored_entries_never_change (w w' : world) (uri : str) (a : stored) :
  reachable w -> rtc step w w' -> distinct_draws (uuids_drawn w') ->
  ACTIVITY_STORE w !! uri = Some a -> ACTIVITY_STORE w' !! uri = Some a.
Proof.
  intros Hreach Hrtc. apply reachable_keys_from_draws in Hreach.
  revert Hreach. induction Hrtc as [| w1 w2 w3 Hs Hrest IH];
    intros Hk Hdist Hget; [exact Hget |].
  apply step_has_shape in Hs.
  apply IH; [now apply (step_shape_keys_from_draws w1) | exact Hdist |].
  apply (step_shape_keeps_entries w1); try assumption.
  apply (distinct_draws_mono _ (uuids_drawn w3)); [| exact Hdist].
  now apply rtc_step_draws.
Qed.

Lemma reachable_cache_agrees (w : world) :
  reachable w -> distinct_draws (uuids_drawn w) -> cache_agrees w.
Proof.
  intros Hreach. pattern w. revert w Hreach. apply reachable_ind_shape.
  - intros _ uri b ts. cbn. rewrite lookup_empty. discriminate.
  - intros w w' Hreach IH Hshape Hdist.
    apply (step_shape_cache_agrees w); try assumption.
    + now apply reachable_keys_from_draws.
    + apply IH. apply (distinct_draws_mono _ (uuids_drawn w')); [| exact Hdist].
      now apply step_shape_draws.
Qed.

(** X14.  With distinct UUIDs the cache is never stale: in every reachable
    state, the activity a fetch endpoint answers with, from the cache or
    not, is the one the store holds under the requested URI. *)
Theorem fetch_answers_from_store (w : world) (k : kind) (x : UUID)
    (now_check now_insert : datetime) (a : stored) :
  reachable w -> distinct_draws (uuids_drawn w) ->
  (fetch_endpoint k x now_check now_insert w).1 = Ok (ActivityResponse a) ->
  ACTIVITY_STORE w !! object_uri k x = Some a.
Proof.
  intros Hreach Hdist Hans.
  pose proof (reachable_cache_agrees w Hreach Hdist) as Hagree.
  apply fetch_endpoint_answer in Hans. destruct Hans as [H | [ts H]];
    [exact H | now apply Hagree with ts].
Qed.

(** X15.  A fetch of an identifier whose text is that of no UUID drawn so far
    is answered 404, in every reachable state, and leaves the cache as it
    is. *)
Theorem fetch_of_unknown_is_404 (w : world) (k : kind) (x : UUID)
    (now_check now_insert : datetime) :
  reachable w ->
  (forall i, (i < uuids_drawn w)%nat -> uuid_str x <> uuid_str (uuid4_draw i)) ->
  fetch_endpoint k x now_check now_insert w =
    (Ok (Response 404), after_store_miss w).
Proof.
  intros Hreach Hnew. apply reachable_keys_from_draws in Hreach.
  destruct Hreach as [Hs Hc].
  assert (Hfresh : ~ from_draws (uuids_drawn w) (object_uri k x)).
  { intros (k' & i & Hi & H). apply object_uri_kind in H.
    destruct H as [_ H]. now apply (Hnew i). }
  rewrite fetch_endpoint_unfold. cbv zeta.
  destruct (CACHE w !! object_uri k x) as [[a ts] |] eqn:Hcache;
    [exfalso; apply Hfresh; now apply Hc with a ts |].
  destruct (ACTIVITY_STORE w !! object_uri k x) as [a |] eqn:Hstore;
    [exfalso; apply Hfresh; now apply Hs with a | reflexivity].
Qed.
End Process.

(* ===================================================================== *)
(** ** The runtime model on examples *)
(* ===================================================================== *)

Example strip_example :
  strip ([9; 32]%N ++ u "tea  time" ++ [160; 10]%N) = u "tea  time".
Proof. vm_compute. reflexivity. Qed.

Example int_example :
  int (u "0042") = Ok 42 /\ int [1635; 1636]%N = Ok 34 /\
  int (u "4x") = Raise ValueError.
Proof. repeat split; vm_compute; reflexivity. Qed.

Example str_of_int_example : str_of_int 1200 = u "1200".
Proof. vm_compute. reflexivity. Qed.

Example timedelta_new_example :
  timedelta_new 0 90061 0 0 = Ok (mk_timedelta 1 3661 0) /\
  timedelta_new 999999999 0 0 0 = Ok (mk_timedelta 999999999 0 0) /\
  timedelta_new 0 0 0 24000000000 = Raise OverflowError.
Proof. repeat split; vm_compute; reflexivity. Qed.

Example cache_ttl_example : timedelta_new 0 0 5 0 = Ok CACHE_TTL.
Proof. vm_compute. reflexivity. Qed.

Example uuid_str_example :
  uuid_str (mk_UUID 24197857161011715162171839636988778104) =
    u "12345678-1234-5678-1234-567812345678".
Proof. vm_compute. reflexivity. Qed.

(** Tags are removed left to right; a [<] with no tag after it stays. *)
Example strip_tags_example :
  strip_tags (u "<>>a<b<c>d<" ++ [10%N] ++ u ">e<>f") = u "a<bde<>f".
Proof. vm_compute. reflexivity. Qed.

Example replace_example :
  replace (u "@reminder 5m @reminderx") (u "@reminder") [] = u " 5m x".
Proof. vm_compute. reflexivity. Qed.

(** The long s is matched as a unit and then refused by the comparisons. *)
Example long_s_example :
  pattern_search (u "5" ++ [383%N]) = Some (u "5", [383%N], []) /\
  parse_reminder (u "5" ++ [383%N]) = Ok NoMatch.
Proof. split; vm_compute; reflexivity. Qed.

(* ===================================================================== *)
(** ** Properties of the command parser *)
(* ===================================================================== *)

Lemma is_space_enum (c : N) :
  is_space c = true ->
  In c [9; 10; 11; 12; 13; 28; 29; 30; 31; 32; 133; 160; 5760; 8192; 8193;
        8194; 8195; 8196; 8197; 8198; 8199; 8200; 8201; 8202; 8232; 8233;
        8239; 8287; 12288]%N.
Proof.
  unfold is_space. intros H.
  repeat (apply orb_prop in H; destruct H as [H | H]);
    try (apply andb_prop in H; destruct H as [H1 H2];
         apply N.leb_le in H1; apply N.leb_le in H2);
    try apply N.eqb_eq in H; simpl; lia.
Qed.

Lemma space_not_decimal (c : N) : is_space c = true -> is_decimal c = false.
Proof.
  intros H. apply is_space_enum in H. simpl in H.
  repeat (destruct H as [<- | H]; [vm_compute; reflexivity |]).
  destruct H.
Qed.

Lemma decimal_not_space (c : N) : is_decimal c = true -> is_space c = false.
Proof.
  intros H. destruct (is_space c) eqn:E; [| reflexivity].
  apply space_not_decimal in E. congruence.
Qed.

Lemma is_unit_enum (c : N) :
  is_unit c = true -> In c [115; 83; 383; 109; 77; 104; 72; 100; 68]%N.
Proof.
  unfold is_unit. intros H.
  repeat (apply orb_prop in H; destruct H as [H | H]);
    apply N.eqb_eq in H; simpl; lia.
Qed.

Lemma unit_not_decimal (c : N) : is_unit c = true -> is_decimal c = false.
Proof.
  intros H. apply is_unit_enum in H. simpl in H.
  repeat (destruct H as [<- | H]; [vm_compute; reflexivity |]).
  destruct H.
Qed.

Lemma unit_not_space (c : N) : is_unit c = true -> is_space c = false.
Proof.
  intros H. apply is_unit_enum in H. simpl in H.
  repeat (destruct H as [<- | H]; [vm_compute; reflexivity |]).
  destruct H.
Qed.

Lemma take_while_app_stop {A} (p : A -> bool) (l : list A) (x : A) (r : list A) :
  Forall (fun a => p a = true) l -> p x = false ->
  take_while p (l ++ x :: r) = l.
Proof.
  induction 1 as [| a l Ha _ IH]; intros Hx; simpl.
  - now rewrite Hx.
  - rewrite Ha. f_equal. now apply IH.
Qed.

Lemma drop_while_app_stop {A} (p : A -> bool) (l : list A) (x : A) (r : list A) :
  Forall (fun a => p a = true) l -> p x = false ->
  drop_while p (l ++ x :: r) = x :: r.
Proof.
  induction 1 as [| a l Ha _ IH]; intros Hx; simpl.
  - now rewrite Hx.
  - rewrite Ha. now apply IH.
Qed.

Lemma take_drop_while {A} (p : A -> bool) (l : list A) :
  take_while p l ++ drop_while p l = l.
Proof.
  induction l as [| a l IH]; simpl; [reflexivity |].
  destruct (p a); simpl; [now rewrite IH | reflexivity].
Qed.

Lemma take_while_Forall {A} (p : A -> bool) (l : list A) :
  Forall (fun a => p a = true) (take_while p l).
Proof.
  induction l as [| a l IH]; simpl; [constructor |].
  destruct (p a) eqn:E; [constructor; assumption | constructor].
Qed.

(** The pattern on digits, a unit and any remainder. *)
Lemma pattern_search_digits_unit (ds : str) (c : N) (rest : str) :
  ds <> [] ->
  Forall (fun d => is_decimal d = true) ds ->
  is_unit c = true ->
  pattern_search (ds ++ c :: rest) =
    Some (ds, [c], take_while is_dot (drop_while is_space rest)).
Proof.
  intros Hne Hds Hc. unfold pattern_search.
  assert (Hlead : drop_while is_space (ds ++ c :: rest) = ds ++ c :: rest).
  { destruct ds as [| d ds']; [congruence |]. simpl.
    inversion Hds; subst. now rewrite decimal_not_space. }
  rewrite Hlead.
  rewrite (take_while_app_stop _ _ _ _ Hds (unit_not_decimal _ Hc)).
  rewrite (drop_while_app_stop _ _ _ _ Hds (unit_not_decimal _ Hc)).
  destruct ds as [| d ds']; [congruence |].
  cbn [drop_while]. rewrite (unit_not_space _ Hc). now rewrite Hc.
Qed.

(** Every match of the pattern splits the text into leading white space,
    the digits, white space, the unit and a remainder. *)
Lemma pattern_search_some (text value unt message : str) :
  pattern_search text = Some (value, unt, message) ->
  exists lead gap c rest,
    text = lead ++ value ++ gap ++ c :: rest /\
    Forall (fun x => is_space x = true) lead /\
    value <> [] /\
    Forall (fun x => is_decimal x = true) value /\
    Forall (fun x => is_space x = true) gap /\
    is_unit c = true /\
    unt = [c] /\
    message = take_while is_dot (drop_while is_space rest).
Proof.
  unfold pattern_search. intros H.
  set (t1 := drop_while is_space text) in *.
  set (t2 := drop_while is_decimal t1) in *.
  destruct (take_while is_decimal t1) as [| d ds] eqn:Ev; [discriminate |].
  destruct (drop_while is_space t2) as [| c t4] eqn:E3; [discriminate |].
  destruct (is_unit c) eqn:Ec; [| discriminate].
  injection H as <- <- <-.
  exists (take_while is_space text), (take_while is_space t2), c, t4.
  repeat split; try apply take_while_Forall; try congruence.
  - rewrite <- E3, take_drop_while. subst t2.
    rewrite <- Ev, take_drop_while. subst t1.
    now rewrite take_drop_while.
  - rewrite <- Ev. apply take_while_Forall.
Qed.

(** The number of seconds of one unit; [None] for U+017F, which the
    pattern accepts and the chain of comparisons does not. *)
Definition unit_seconds (c : N) : option Z :=
  if ((c =? 115) || (c =? 83))%N then Some 1
  else if ((c =? 109) || (c =? 77))%N then Some 60
  else if ((c =? 104) || (c =? 72))%N then Some 3600
  else if ((c =? 100) || (c =? 68))%N then Some 86400
  else None.

(** A duration of [s] whole seconds, when [timedelta] can hold it. *)
Definition timedelta_of_seconds (s : Z) : result timedelta :=
  if 999999999 <? Z.abs (s / 86400) then Raise OverflowError
  else Ok (mk_timedelta (s / 86400) (s mod 86400) 0).

(** The message returned for the text captured by the last group. *)
Definition message_of_group (message : str) : str :=
  match strip message with
  | [] => DEFAULT_MESSAGE
  | m => m
  end.

Lemma timedelta_new_seconds (v : Z) :
  timedelta_new 0 v 0 0 = timedelta_of_seconds (v * 1).
Proof.
  unfold timedelta_new, timedelta_of_seconds.
  replace (v + 0 * 60 + 0 * 3600) with (v * 1) by lia.
  now rewrite Z.add_0_l.
Qed.

Lemma timedelta_new_minutes (v : Z) :
  timedelta_new 0 0 v 0 = timedelta_of_seconds (v * 60).
Proof.
  unfold timedelta_new, timedelta_of_seconds.
  replace (0 + v * 60 + 0 * 3600) with (v * 60) by lia.
  now rewrite Z.add_0_l.
Qed.

Lemma timedelta_new_hours (v : Z) :
  timedelta_new 0 0 0 v = timedelta_of_seconds (v * 3600).
Proof.
  unfold timedelta_new, timedelta_of_seconds.
  replace (0 + 0 * 60 + v * 3600) with (v * 3600) by lia.
  now rewrite Z.add_0_l.
Qed.

Lemma timedelta_new_days (v : Z) :
  timedelta_new v 0 0 0 = timedelta_of_seconds (v * 86400).
Proof.
  unfold timedelta_new, timedelta_of_seconds.
  replace (0 + 0 * 60 + 0 * 3600) with 0 by lia.
  rewrite Z.div_mul by lia. rewrite Z.mod_mul by lia.
  rewrite Zdiv_0_l, Zmod_0_l. now rewrite Z.add_0_r.
Qed.

Lemma strip_default : strip DEFAULT_MESSAGE = DEFAULT_MESSAGE.
Proof. vm_compute. reflexivity. Qed.

Lemma strip_message_of_group (message : str) :
  strip (match strip message with [] => DEFAULT_MESSAGE | _ => message end)
  = message_of_group message.
Proof.
  unfold message_of_group. destruct (strip message) eqn:E.
  - apply strip_default.
  - exact E.
Qed.

(** [parse_reminder] once the pattern has matched and the magnitude is
    read. *)
Lemma parse_reminder_matched (text value message : str) (c : N) (v : Z) :
  pattern_search text = Some (value, [c], message) ->
  is_unit c = true ->
  int value = Ok v ->
  parse_reminder text =
    match unit_seconds c with
    | Some k =>
        rbind (timedelta_of_seconds (v * k)) (fun delta =>
          Ok (Some delta, Some (message_of_group message),
              Some (str_of_int v ++ [lower_char c])))
    | None => Ok NoMatch
    end.
Proof.
  intros Hs Hc Hv. unfold parse_reminder. rewrite Hs, Hv. cbn [rbind].
  apply is_unit_enum in Hc. simpl in Hc.
  repeat (destruct Hc as [<- | Hc];
    [ cbn -[timedelta_new strip str_of_int DEFAULT_MESSAGE];
      rewrite ?timedelta_new_seconds, ?timedelta_new_minutes,
               ?timedelta_new_hours, ?timedelta_new_days;
      try reflexivity;
      destruct (timedelta_of_seconds _); cbn [rbind];
      rewrite ?strip_message_of_group; reflexivity |]).
  destruct Hc.
Qed.

(** The magnitude written by a run of decimal digits. *)
Definition magnitude (ds : str) : Z := default 0 (digits_value 0 ds).

Lemma digits_value_decimal (ds : str) (acc : Z) :
  Forall (fun d => is_decimal d = true) ds ->
  0 <= acc ->
  exists v, digits_value acc ds = Some v /\ 0 <= v.
Proof.
  intros H. revert acc. induction H as [| d ds Hd _ IH]; intros acc Hacc; simpl.
  - eauto.
  - unfold is_decimal in Hd. destruct (decimal_value d) as [n |]; [| discriminate].
    apply IH. lia.
Qed.

Lemma int_of_digits (ds : str) :
  ds <> [] ->
  Forall (fun d => is_decimal d = true) ds ->
  int ds = if (int_max_str_digits <? length ds)%nat then Raise ValueError
           else Ok (magnitude ds).
Proof.
  intros Hne Hds. unfold int, magnitude.
  destruct (digits_value_decimal ds 0 Hds ltac:(lia)) as (v & -> & _).
  destruct ds; [congruence | reflexivity].
Qed.

Lemma magnitude_nonneg (ds : str) :
  Forall (fun d => is_decimal d = true) ds -> 0 <= magnitude ds.
Proof.
  intros Hds. unfold magnitude.
  destruct (digits_value_decimal ds 0 Hds ltac:(lia)) as (v & -> & Hv).
  exact Hv.
Qed.

Lemma unit_seconds_is_unit (c : N) (k : Z) :
  unit_seconds c = Some k -> is_unit c = true /\ 0 < k.
Proof.
  unfold unit_seconds, is_unit. intros H.
  repeat match type of H with
         | (if ?b then _ else _) = _ => destruct b eqn:?
         end; try discriminate; injection H as <-;
  repeat match goal with
         | E : (_ || _)%bool = true |- _ => apply orb_prop in E; destruct E
         | E : (_ =? _)%N = true |- _ => apply N.eqb_eq in E; subst
         end; split; (reflexivity || lia).
Qed.

(** C3. The four examples of the command parser: [5m Check the oven] gives
    five minutes and the message [Check the oven]; [10M] gives ten minutes
    and the default message (the unit in upper case, no message); [hello]
    gives no match; [3x do it] gives no match, because [x] is no unit. *)
Theorem parser_examples :
  parse_reminder (u "5m Check the oven") =
    Ok (Some (mk_timedelta 0 300 0), Some (u "Check the oven"), Some (u "5m")) /\
  timedelta_new 0 0 5 0 = Ok (mk_timedelta 0 300 0) /\
  parse_reminder (u "10M") =
    Ok (Some (mk_timedelta 0 600 0), Some DEFAULT_MESSAGE, Some (u "10m")) /\
  timedelta_new 0 0 10 0 = Ok (mk_timedelta 0 600 0) /\
  parse_reminder (u "hello") = Ok NoMatch /\
  parse_reminder (u "3x do it") = Ok NoMatch /\
  is_unit 120%N = false.
Proof. repeat split; vm_compute; reflexivity. Qed.

(** C6, amended.  For an input of one or more decimal digits followed by a
    unit letter (s, m, h, d in either case): with at most 4300 digits and
    a delay below 1000000000 days the parser returns that delay, the
    default message and the normalised time text; with at most 4300 digits
    and a longer delay it raises [OverflowError]; with more than 4300
    digits it raises [ValueError]. *)
Theorem parse_reminder_magnitude_range (ds : str) (c : N) (k : Z) :
  ds <> [] ->
  Forall (fun d => is_decimal d = true) ds ->
  unit_seconds c = Some k ->
  ((length ds <= int_max_str_digits)%nat ->
   magnitude ds * k < 86400 * 1000000000 ->
   parse_reminder (ds ++ [c]) =
     Ok (Some (mk_timedelta (magnitude ds * k / 86400)
                            ((magnitude ds * k) mod 86400) 0),
         Some DEFAULT_MESSAGE,
         Some (str_of_int (magnitude ds) ++ [lower_char c]))) /\
  ((length ds <= int_max_str_digits)%nat ->
   86400 * 1000000000 <= magnitude ds * k ->
   parse_reminder (ds ++ [c]) = Raise OverflowError) /\
  ((int_max_str_digits < length ds)%nat ->
   parse_reminder (ds ++ [c]) = Raise ValueError).
Proof.
  intros Hne Hds Hk.
  destruct (unit_seconds_is_unit c k Hk) as [Hc Hpos].
  pose proof (magnitude_nonneg ds Hds) as Hv.
  pose proof (pattern_search_digits_unit ds c [] Hne Hds Hc) as Hs.
  pose proof (int_of_digits ds Hne Hds) as Hi.
  assert (Hq : 0 <= magnitude ds * k / 86400) by (apply Z.div_pos; nia).
  repeat split.
  - intros Hlen Hrange.
    destruct (int_max_str_digits <? length ds)%nat eqn:E;
      [apply Nat.ltb_lt in E; lia |].
    rewrite (parse_reminder_matched _ _ _ _ _ Hs Hc Hi), Hk.
    unfold timedelta_of_seconds.
    assert (magnitude ds * k / 86400 < 1000000000)
      by (apply Z.div_lt_upper_bound; lia).
    destruct (999999999 <? Z.abs (magnitude ds * k / 86400)) eqn:E2;
      [apply Z.ltb_lt in E2; lia |].
    reflexivity.
  - intros Hlen Hrange.
    destruct (int_max_str_digits <? length ds)%nat eqn:E;
      [apply Nat.ltb_lt in E; lia |].
    rewrite (parse_reminder_matched _ _ _ _ _ Hs Hc Hi), Hk.
    unfold timedelta_of_seconds.
    assert (1000000000 <= magnitude ds * k / 86400)
      by (apply Z.div_le_lower_bound; lia).
    destruct (999999999 <? Z.abs (magnitude ds * k / 86400)) eqn:E2;
      [reflexivity | apply Z.ltb_ge in E2; lia].
  - intros Hlen.
    destruct (int_max_str_digits <? length ds)%nat eqn:E;
      [| apply Nat.ltb_ge in E; lia].
    unfold parse_reminder. rewrite Hs, Hi. reflexivity.
Qed.

Lemma parse_reminder_magnitude_range_witness :
  parse_reminder (u "90" ++ [109%N]) =
    Ok (Some (mk_timedelta (magnitude (u "90") * 60 / 86400)
                           ((magnitude (u "90") * 60) mod 86400) 0),
        Some DEFAULT_MESSAGE,
        Some (str_of_int (magnitude (u "90")) ++ [lower_char 109%N])).
Proof.
  apply (parse_reminder_magnitude_range (u "90") 109%N 60).
  - discriminate.
  - repeat constructor.
  - reflexivity.
  - vm_compute. lia.
  - vm_compute. reflexivity.
Defined.

(** C6 as stated fails: ten digits and the unit [d] are not accepted. *)
Lemma huge_delay_not_accepted :
  Forall (fun d => is_decimal d = true) (u "1000000000") /\
  unit_seconds 100%N = Some 86400 /\
  parse_reminder (u "1000000000" ++ [100%N]) = Raise OverflowError.
Proof. repeat split; repeat constructor. Qed.

Lemma drop_while_idem {A} (p : A -> bool) (l : list A) :
  drop_while p (drop_while p l) = drop_while p l.
Proof.
  induction l as [| a l IH]; simpl; [reflexivity |].
  destruct (p a) eqn:E; [exact IH | simpl; now rewrite E].
Qed.

Lemma drop_while_Forall {A} (p q : A -> bool) (l : list A) :
  Forall (fun a => q a = true) l ->
  Forall (fun a => q a = true) (drop_while p l).
Proof.
  induction 1 as [| a l Ha Hl IH]; simpl; [constructor |].
  destruct (p a); [exact IH | constructor; assumption].
Qed.

Lemma take_while_all {A} (p : A -> bool) (l : list A) :
  Forall (fun a => p a = true) l -> take_while p l = l.
Proof.
  induction 1 as [| a l Ha _ IH]; simpl; [reflexivity |].
  rewrite Ha. now f_equal.
Qed.

Lemma message_of_group_lstrip (s : str) :
  message_of_group (drop_while is_space s) = message_of_group s.
Proof.
  unfold message_of_group, strip, lstrip. now rewrite drop_while_idem.
Qed.

(** C7, amended.  On every parse that returns a delay, the text splits at
    its first unit letter, and the returned message is the first line of
    what follows the unit and the white space after it (the text up to the
    first line feed), stripped of surrounding white space, or the default
    message when that is empty.  When what follows the unit holds no line
    feed, this is the stripped remainder itself. *)
Theorem message_is_first_line (text : str) (delay : timedelta)
    (message time_str : option str) :
  parse_reminder text = Ok (Some delay, message, time_str) ->
  exists before c rest,
    text = before ++ c :: rest /\
    Forall (fun x => is_unit x = false) before /\
    is_unit c = true /\
    message =
      Some (message_of_group (take_while is_dot (drop_while is_space rest))) /\
    (Forall (fun x => is_dot x = true) rest ->
     message = Some (message_of_group rest)).
Proof.
  intros H.
  destruct (pattern_search text) as [[[value unt] msg] |] eqn:Hs;
    [| unfold parse_reminder in H; rewrite Hs in H; discriminate].
  destruct (pattern_search_some _ _ _ _ Hs)
    as (lead & gap & c & rest & Ht & Hlead & Hne & Hval & Hgap & Hc & -> & Hm).
  destruct (int value) as [v | e] eqn:Hi;
    [| unfold parse_reminder in H; rewrite Hs, Hi in H; discriminate].
  rewrite (parse_reminder_matched _ _ _ _ _ Hs Hc Hi) in H.
  destruct (unit_seconds c) as [k |]; [| discriminate].
  destruct (timedelta_of_seconds (v * k)) as [d | e]; [| discriminate].
  cbn [rbind] in H. injection H as _ <- _.
  exists (lead ++ value ++ gap), c, rest.
  split; [rewrite Ht, <- !app_assoc; reflexivity |].
  split.
  { rewrite !Forall_app. repeat split.
    - eapply Forall_impl; [exact Hlead |]. intros x Hx. simpl in Hx.
      destruct (is_unit x) eqn:E; [| reflexivity].
      apply unit_not_space in E. congruence.
    - eapply Forall_impl; [exact Hval |]. intros x Hx. simpl in Hx.
      destruct (is_unit x) eqn:E; [| reflexivity].
      apply unit_not_decimal in E. congruence.
    - eapply Forall_impl; [exact Hgap |]. intros x Hx. simpl in Hx.
      destruct (is_unit x) eqn:E; [| reflexivity].
      apply unit_not_space in E. congruence. }
  split; [exact Hc |].
  split; [now rewrite Hm |].
  intros Hdot. rewrite Hm.
  rewrite take_while_all by (now apply drop_while_Forall).
  now rewrite message_of_group_lstrip.
Qed.

Lemma message_is_first_line_witness :
  exists before c rest,
    u "2h  water the plants " = before ++ c :: rest /\
    Forall (fun x => is_unit x = false) before /\
    is_unit c = true /\
    Some (u "water the plants") =
      Some (message_of_group (take_while is_dot (drop_while is_space rest))) /\
    (Forall (fun x => is_dot x = true) rest ->
     Some (u "water the plants") = Some (message_of_group rest)).
Proof.
  apply (message_is_first_line (u "2h  water the plants ")
           (mk_timedelta 0 7200 0) (Some (u "water the plants")) (Some (u "2h"))).
  vm_compute. reflexivity.
Defined.

(** C7 as stated fails on text of several lines: the message stops at the
    line feed, and is not the remainder after the unit. *)
Lemma message_stops_at_line_feed :
  parse_reminder (u "5m" ++ (u " buy milk" ++ [10%N] ++ u "and eggs")) =
    Ok (Some (mk_timedelta 0 300 0), Some (u "buy milk"), Some (u "5m")) /\
  u "buy milk" <> u " buy milk" ++ [10%N] ++ u "and eggs" /\
  u "buy milk" <> strip (u " buy milk" ++ [10%N] ++ u "and eggs").
Proof.
  split; [vm_compute; reflexivity |].
  split; intros H; vm_compute in H; discriminate.
Qed.

(* ===================================================================== *)
(** ** Further properties of the command parser *)
(* ===================================================================== *)

Lemma drop_while_stops {A} (p : A -> bool) (l : list A) :
  drop_while p l = [] \/
  exists x r, drop_while p l = x :: r /\ p x = false.
Proof.
  induction l as [| a l IH]; simpl; [now left |].
  destruct (p a) eqn:E; [exact IH | right; eauto].
Qed.

Lemma drop_while_app_all {A} (p : A -> bool) (l r : list A) :
  Forall (fun a => p a = true) l -> drop_while p (l ++ r) = drop_while p r.
Proof.
  induction 1 as [| a l Ha _ IH]; simpl; [reflexivity |]. now rewrite Ha.
Qed.

Lemma rstrip_snoc (l : str) (x : N) :
  is_space x = false -> rstrip (l ++ [x]) = l ++ [x].
Proof.
  intros Hx. unfold rstrip. rewrite rev_app_distr. simpl. rewrite Hx.
  simpl. now rewrite rev_involutive.
Qed.

Lemma rstrip_cases (l : str) :
  rstrip l = [] \/ exists l0 x, rstrip l = l0 ++ [x] /\ is_space x = false.
Proof.
  unfold rstrip.
  destruct (drop_while_stops is_space (rev l)) as [-> | (x & r & -> & Hx)].
  - now left.
  - right. exists (rev r), x. simpl. auto.
Qed.

Lemma rstrip_prefix (l : str) : exists sp, l = rstrip l ++ sp.
Proof.
  exists (rev (take_while is_space (rev l))). unfold rstrip.
  rewrite <- rev_app_distr, take_drop_while. now rewrite rev_involutive.
Qed.

Lemma rstrip_idem (l : str) : rstrip (rstrip l) = rstrip l.
Proof.
  destruct (rstrip_cases l) as [-> | (l0 & x & -> & Hx)];
    [reflexivity | now apply rstrip_snoc].
Qed.

Lemma lstrip_strip (s : str) : lstrip (strip s) = strip s.
Proof.
  unfold strip.
  destruct (rstrip_prefix (lstrip s)) as [sp Hsp].
  destruct (rstrip (lstrip s)) as [| y r] eqn:Hr; [reflexivity |].
  unfold lstrip in *.
  destruct (drop_while_stops is_space s) as [H0 | (x & r0 & H0 & Hx)];
    rewrite H0 in Hsp; [discriminate |].
  injection Hsp as -> _. simpl. now rewrite Hx.
Qed.

(** Stripping a stripped text changes nothing. *)
Lemma strip_idem (s : str) : strip (strip s) = strip s.
Proof.
  unfold strip at 1. rewrite lstrip_strip. unfold strip. apply rstrip_idem.
Qed.

Lemma message_of_group_stripped (m : str) :
  message_of_group m <> [] /\ strip (message_of_group m) = message_of_group m.
Proof.
  unfold message_of_group. destruct (strip m) as [| x r] eqn:E.
  - split; [discriminate | apply strip_default].
  - split; [discriminate |]. rewrite <- E. apply strip_idem.
Qed.

Lemma lower_unit_letter (c : N) (k : Z) :
  unit_seconds c = Some k -> In (lower_char c) (u "smhd").
Proof.
  intros H. destruct (unit_seconds_is_unit c k H) as [Hc _].
  apply is_unit_enum in Hc. simpl in Hc.
  repeat (destruct Hc as [<- | Hc];
          [first [discriminate H | vm_compute; tauto] |]).
  destruct Hc.
Qed.

(** X1.  What [parse_reminder] can give back.  For every text it returns no
    match, or raises [ValueError] or [OverflowError], or returns all three
    values: a delay of whole seconds between zero and 999999999 days that
    is the magnitude times the unit, a message that is not empty and has
    no white space around it, and the time text made of the magnitude in
    decimal and the unit letter in lower case. *)
Theorem parse_reminder_result_shape (text : str) :
  parse_reminder text = Ok NoMatch \/
  parse_reminder text = Raise ValueError \/
  parse_reminder text = Raise OverflowError \/
  exists delay message v c k,
    parse_reminder text =
      Ok (Some delay, Some message, Some (str_of_int v ++ [lower_char c])) /\
    0 <= v /\ unit_seconds c = Some k /\ In (lower_char c) (u "smhd") /\
    td_days delay * 86400 + td_seconds delay = v * k /\
    0 <= td_days delay <= 999999999 /\
    0 <= td_seconds delay < 86400 /\
    td_microseconds delay = 0 /\
    message <> [] /\ strip message = message.
Proof.
  destruct (pattern_search text) as [[[value unt] msg] |] eqn:Hs;
    [| left; unfold parse_reminder; now rewrite Hs].
  destruct (pattern_search_some _ _ _ _ Hs)
    as (lead & gap & c & rest & _ & _ & Hne & Hval & _ & Hc & -> & _).
  pose proof (int_of_digits value Hne Hval) as Hi.
  destruct (int_max_str_digits <? length value)%nat.
  { right. left. unfold parse_reminder. now rewrite Hs, Hi. }
  rewrite (parse_reminder_matched _ _ _ _ _ Hs Hc Hi).
  destruct (unit_seconds c) as [k |] eqn:Hk; [| now left].
  destruct (unit_seconds_is_unit c k Hk) as [_ Hpos].
  pose proof (magnitude_nonneg value Hval) as Hv.
  unfold timedelta_of_seconds.
  assert (Hq : 0 <= magnitude value * k / 86400) by (apply Z.div_pos; nia).
  pose proof (Z.mod_pos_bound (magnitude value * k) 86400 ltac:(lia)) as Hr.
  pose proof (Z.div_mod (magnitude value * k) 86400 ltac:(lia)) as Hdm.
  destruct (999999999 <? Z.abs (magnitude value * k / 86400)) eqn:E;
    [now (right; right; left) |].
  apply Z.ltb_ge in E. right. right. right. cbn [rbind].
  eexists _, _, (magnitude value), c, k.
  split; [reflexivity |]. cbn [td_days td_seconds td_microseconds].
  destruct (message_of_group_stripped msg) as [Hm1 Hm2].
  repeat split; try assumption; try lia.
  now apply lower_unit_letter with k.
Qed.

(** The pattern on a command with white space before the magnitude and
    between the magnitude and the unit. *)
Lemma pattern_search_spaced (lead ds gap : str) (c : N) (rest : str) :
  Forall (fun x => is_space x = true) lead ->
  ds <> [] ->
  Forall (fun x => is_decimal x = true) ds ->
  Forall (fun x => is_space x = true) gap ->
  is_unit c = true ->
  pattern_search (lead ++ ds ++ gap ++ c :: rest) =
    Some (ds, [c], take_while is_dot (drop_while is_space rest)).
Proof.
  intros Hlead Hne Hds Hgap Hc. unfold pattern_search.
  rewrite (drop_while_app_all _ _ _ Hlead).
  assert (Hkeep : drop_while is_space (ds ++ gap ++ c :: rest) =
                  ds ++ gap ++ c :: rest).
  { destruct ds as [| d ds']; [congruence |]. simpl.
    inversion Hds; subst. now rewrite decimal_not_space. }
  rewrite Hkeep.
  assert (Hstop : exists x r, gap ++ c :: rest = x :: r /\ is_decimal x = false).
  { destruct gap as [| g gap']; simpl.
    - exists c, rest. split; [reflexivity | now apply unit_not_decimal].
    - exists g, (gap' ++ c :: rest). split; [reflexivity |].
      inversion Hgap; subst. now apply space_not_decimal. }
  destruct Hstop as (x & r & Hxr & Hx).
  rewrite Hxr, (take_while_app_stop _ _ _ _ Hds Hx),
    (drop_while_app_stop _ _ _ _ Hds Hx), <- Hxr.
  destruct ds as [| d ds']; [congruence |].
  rewrite (drop_while_app_stop _ _ _ _ Hgap (unit_not_space _ Hc)).
  now rewrite Hc.
Qed.

(** X2.  White space before the magnitude and between the magnitude and the
    unit does not change what [parse_reminder] returns. *)
Theorem parse_reminder_ignores_spacing (lead ds gap : str) (c : N) (rest : str) :
  Forall (fun x => is_space x = true) lead ->
  ds <> [] ->
  Forall (fun x => is_decimal x = true) ds ->
  Forall (fun x => is_space x = true) gap ->
  is_unit c = true ->
  parse_reminder (lead ++ ds ++ gap ++ c :: rest) =
  parse_reminder (ds ++ c :: rest).
Proof.
  intros Hlead Hne Hds Hgap Hc. unfold parse_reminder.
  rewrite (pattern_search_spaced lead ds gap c rest) by assumption.
  now rewrite (pattern_search_digits_unit ds c rest) by assumption.
Qed.

Lemma parse_reminder_ignores_spacing_witness :
  parse_reminder (u "  " ++ u "15" ++ u " " ++ 72%N :: u " stand up") =
  parse_reminder (u "15" ++ 72%N :: u " stand up").
Proof.
  apply (parse_reminder_ignores_spacing (u "  ") (u "15") (u " ") 72%N
           (u " stand up")).
  - repeat constructor.
  - discriminate.
  - repeat constructor.
  - repeat constructor.
  - reflexivity.
Defined.





(* ===================================================================== *)
(** ** The handlers on concrete requests *)
(* ===================================================================== *)

(** A process whose key is a token and whose [uuid4] counts up. *)
Definition sample_pem : str := u "-----BEGIN PUBLIC KEY-----".
Definition sample_draw (n : nat) : UUID := mk_UUID (N.of_nat n).

Definition alice : Actor :=
  mk_Actor (u "https://example.social/users/alice")
           (Some (u "alice"))
           (Some (u "https://example.social/@alice"))
           (u "Person(alice)").

(** A Note by alice that mentions the bot, and the Create that carries it. *)
Definition mention_note (text : str) : Note :=
  mk_Note (Some (u "https://example.social/notes/1"))
          (Some (actor_id alice))
          None
          (Some text)
          [actor_uri]
          [TagMention (mk_Mention (Some actor_uri) (Some (u "@reminder")))].

Definition mention_of_bot (text : str) : Create :=
  mk_Create
    (Some (u "https://example.social/activities/1"))
    (RefUri (actor_id alice))
    (ObjNote (mention_note text))
    [actor_uri].

Definition hello_text : str := u "<p>@reminder hello</p>".

(** A transport that resolves every actor to alice and delivers. *)
Definition transport_up : @transport unit :=
  mk_transport (fun _ => Fetched alice) (fun _ _ _ => None).

(** A transport whose fetches raise. *)
Definition transport_down : @transport unit :=
  mk_transport (fun _ => FetchRaised (TransportError 0)) (fun _ _ _ => None).

(** A transport whose fetches return a false value. *)
Definition transport_none : @transport unit :=
  mk_transport (fun _ => FetchedNone) (fun _ _ _ => None).

Example command_text_example :
  command_text_of sample_pem
    (u "<p><span class=" ++ [CHAR_DQ] ++ u "h-card" ++ [CHAR_DQ] ++
     u "><a href=" ++ [CHAR_DQ] ++ u "https://apsig.amase.cc/actor" ++ [CHAR_DQ] ++
     u ">@reminder</a></span> 5m Check the oven</p>") =
    u "5m Check the oven".
Proof. vm_compute. reflexivity. Qed.

(** A mention with a command schedules one reminder and is acknowledged. *)
Example acknowledged_example :
  let run := on_create_activity tt sample_pem sample_draw transport_up
               (ActCreate (mention_of_bot (u "<p>@reminder 5m tea</p>")))
               initial_world in
  run.1 = Ok (Response 202) /\
  tasks run.2 =
    [mk_task (mk_timedelta 0 300 0) (u "tea") alice
       (mention_note (u "<p>@reminder 5m tea</p>"))] /\
  List.map (fun d => match d_activity d with
                     | OutCreate c =>
                         match create_object c with
                         | ObjNote n => content n
                         | ObjOther => None
                         end
                     | OutAccept _ => None
                     end) (deliveries run.2) =
    [Some (ACK_PREFIX ++ u "5m.</p>")].
Proof. repeat split; vm_compute; reflexivity. Qed.

(** A reminder for alice fires while fetches return a false value. *)
Lemma refetch_false_value_aborts_witness :
  let w : @world unit := initial_world in
  let run := send_reminder tt sample_pem sample_draw transport_none
               (mk_timedelta 0 300 0) (u "tea") alice (mention_note (u "5m tea")) w in
  run.1 = Raise AttributeError /\
  run.2 = w /\
  ACTIVITY_STORE run.2 = ACTIVITY_STORE w /\
  deliveries run.2 = deliveries w /\
  uuids_drawn run.2 = uuids_drawn w.
Proof.
  apply (refetch_false_value_aborts tt sample_pem sample_draw transport_none
           (mk_timedelta 0 300 0) (u "tea") alice (mention_note (u "5m tea"))
           initial_world).
  reflexivity.
Defined.

Lemma refetch_failure_tolerated_witness :
  let w : @world unit := initial_world in
  let original_note := mk_Note None None None None [] [] in
  let x := sample_draw (uuids_drawn w) in
  let y := sample_draw (S (uuids_drawn w)) in
  let n := note_for x (note_id original_note)
             (reminder_content alice (u "tea")) alice in
  let c := create_for y n alice in
  let run := send_reminder tt sample_pem sample_draw transport_down
               (mk_timedelta 0 300 0) (u "tea") alice original_note w in
  ACTIVITY_STORE run.2 !! object_uri KNote x = Some (StoredNote n) /\
  ACTIVITY_STORE run.2 !! object_uri KCreate y = Some (StoredCreate c) /\
  deliveries run.2 =
    mk_delivery (own_keys tt) alice (OutCreate c) :: deliveries w /\
  run.1 = match tr_send transport_down (own_keys tt) alice (OutCreate c) with
          | None => Ok tt
          | Some e' => Raise e'
          end.
Proof.
  apply (refetch_failure_tolerated tt sample_pem sample_draw transport_down
           (mk_timedelta 0 300 0) (u "tea") alice
           (mk_Note None None None None [] []) initial_world
           (TransportError 0)).
  reflexivity.
Defined.

Lemma parse_failure_reply_witness :
  let w : @world unit := initial_world in
  let x := sample_draw (uuids_drawn w) in
  let y := sample_draw (S (uuids_drawn w)) in
  let n := note_for x (note_id (mention_note hello_text)) USAGE_HELP alice in
  let c := create_for y n alice in
  let run := on_create_activity tt sample_pem sample_draw transport_up
               (ActCreate (mention_of_bot hello_text)) w in
  deliveries run.2 = mk_delivery (own_keys tt) alice (OutCreate c) :: deliveries w /\
  tasks run.2 = tasks w /\
  ACTIVITY_STORE run.2 !! object_uri KNote x = Some (StoredNote n) /\
  ACTIVITY_STORE run.2 !! object_uri KCreate y = Some (StoredCreate c) /\
  (tr_send transport_up (own_keys tt) alice (OutCreate c) = None ->
   run.1 = Ok (Response 202)).
Proof.
  apply (parse_failure_reply tt sample_pem sample_draw transport_up
           (mention_of_bot hello_text) (mention_note hello_text) hello_text
           alice initial_world).
  - reflexivity.
  - vm_compute. reflexivity.
  - reflexivity.
  - vm_compute. reflexivity.
  - reflexivity.
Defined.

(** C5 as stated fails.  The command text finds no match, the fetch of
    the sender raises, and the handler ends with that exception, having
    handed nothing to the transport.  When the fetch returns a false value
    instead, the handler ends with [AttributeError], again with nothing
    handed over.  And a command whose delay [timedelta] cannot hold makes
    the parser, and with it the handler, raise [OverflowError] although
    the transport works. *)
Lemma parse_failure_without_reply :
  parse_reminder (command_text_of sample_pem hello_text) = Ok NoMatch /\
  on_create_activity tt sample_pem sample_draw transport_down
    (ActCreate (mention_of_bot hello_text)) initial_world =
    (Raise (TransportError 0), initial_world) /\
  (on_create_activity tt sample_pem sample_draw transport_none
     (ActCreate (mention_of_bot hello_text)) initial_world).1 =
    Raise AttributeError /\
  deliveries
    (on_create_activity tt sample_pem sample_draw transport_none
       (ActCreate (mention_of_bot hello_text)) initial_world).2 = [] /\
  on_create_activity tt sample_pem sample_draw transport_up
    (ActCreate (mention_of_bot (u "<p>@reminder 1000000000d</p>")))
    initial_world =
    (Raise OverflowError, initial_world).
Proof. repeat split; vm_compute; reflexivity. Qed.

Definition follow_by_alice (n : N) : Follow :=
  mk_Follow (Some (u "https://example.social/follows/" ++ [48 + n]%N))
            (RefUri (actor_id alice)).

Definition sent_accept_id {K} (d : @delivery K) : str :=
  match d_activity d with
  | OutAccept a => accept_id a
  | OutCreate _ => []
  end.

(** C8 as stated fails for the Accept: the Follow by alice is answered by
    one Accept, whose URI holds what the follower is written as under
    [/activity/follows/]; that URI is not of the shape of one path segment
    and a UUID, and no UUID was drawn for it. *)
Lemma accept_uri_has_no_uuid :
  let w1 := (on_follow_activity tt sample_pem transport_up
               (ActFollow (follow_by_alice 1)) initial_world).2 in
  List.map sent_accept_id (deliveries w1) =
    [u "https://apsig.amase.cc/activity/follows/" ++ actor_repr alice] /\
  ~ uuid_shaped (u "https://apsig.amase.cc/activity/follows/" ++ actor_repr alice) /\
  uuids_drawn w1 = 0%nat.
Proof.
  split; [vm_compute; reflexivity |].
  split; [| vm_compute; reflexivity].
  apply (follows_uri_not_uuid_shaped (actor_repr alice)).
Qed.

(** C9 as stated fails: a query by the URL of the actor, which names no
    user and no host, is answered 200 as well. *)
Lemma webfinger_answers_actor_url :
  let acct := mk_WebfingerResource None None
                (Some (u "https://apsig.amase.cc/actor")) in
  acct_username acct <> Some USER_ID /\
  status_of (webfinger_endpoint sample_pem acct) = 200 /\
  webfinger_endpoint sample_pem acct =
    WebfingerResponse acct
      [mk_WebfingerLink (u "self") (u "application/activity+json")
         (u "https://apsig.amase.cc/actor")].
Proof. split; [discriminate | split; vm_compute; reflexivity]. Qed.

Lemma store_key_invariant_witness :
  let w := (on_create_activity tt sample_pem sample_draw transport_up
              (ActCreate (mention_of_bot hello_text)) initial_world).2 in
  (forall uri a, ACTIVITY_STORE w !! uri = Some a -> stored_id a = Some uri) /\
  (forall k x now_check now_insert a,
     (fetch_endpoint k x now_check now_insert w).1 = Ok (ActivityResponse a) ->
     stored_id a = Some (object_uri k x)).
Proof.
  apply (store_key_invariant tt sample_pem sample_draw).
  apply rtc_once. apply step_create.
Defined.

(** The configured handle is answered. *)
Lemma webfinger_answers_witness :
  let acct := mk_WebfingerResource (Some USER_ID) (Some HOST) None in
  webfinger_endpoint sample_pem acct =
    WebfingerResponse acct
      [mk_WebfingerLink (u "self") (u "application/activity+json") actor_uri] /\
  status_of (webfinger_endpoint sample_pem acct) = 200.
Proof.
  apply (proj1 (webfinger_answers sample_pem
                  (mk_WebfingerResource (Some USER_ID) (Some HOST) None))).
  left. repeat split.
Defined.

(** The state after the usage help was sent to alice, and the Note stored
    in it. *)
Definition world_after_help : @world unit :=
  (on_create_activity tt sample_pem sample_draw transport_up
     (ActCreate (mention_of_bot hello_text)) initial_world).2.

Definition help_note : Note :=
  note_for (sample_draw 0) (note_id (mention_note hello_text)) USAGE_HELP alice.

(** Two fetches of the stored Note, one second apart. *)
Lemma read_through_cache_witness :
  let run := fetch_endpoint KNote (sample_draw 0) 1000000 1000001
               world_after_help in
  let again := fetch_endpoint KNote (sample_draw 0) 2000000 2000001 run.2 in
  run.1 = Ok (ActivityResponse (StoredNote help_note)) /\
  again.1 = Ok (ActivityResponse (StoredNote help_note)) /\
  store_reads again.2 = S (store_reads world_after_help).
Proof.
  pose proof (read_through_cache KNote (sample_draw 0) 1000000 1000001
                world_after_help) as H.
  cbv zeta in H. destruct H as (_ & _ & _ & H & _).
  apply (H ltac:(intros a ts Hc; vm_compute in Hc; discriminate Hc)
           (StoredNote help_note) ltac:(vm_compute; reflexivity)
           2000000 2000001 ltac:(vm_compute; reflexivity)).
Defined.

(* ===================================================================== *)
(** ** Further runs on concrete requests *)
(* ===================================================================== *)

(** A Note by alice that mentions somebody else. *)
Definition plain_create : Create :=
  mk_Create
    (Some (u "https://example.social/activities/2"))
    (RefUri (actor_id alice))
    (ObjNote
       (mk_Note (Some (u "https://example.social/notes/2"))
                (Some (actor_id alice))
                None
                (Some (u "<p>@reminder 5m tea</p>"))
                []
                [TagOther;
                 TagMention (mk_Mention (Some (u "https://example.social/users/bob"))
                               (Some (u "@bob")))]))
    [].

Lemma on_create_activity_ignores_witness :
  on_create_activity tt sample_pem sample_draw transport_down
    (ActCreate plain_create) initial_world =
    (Ok (Response 202), initial_world).
Proof.
  apply (on_create_activity_ignores tt sample_pem sample_draw transport_down
           (ActCreate plain_create) initial_world).
  intros create [= <-]. right. eexists. split; [reflexivity |].
  repeat constructor.
Defined.

Lemma on_create_activity_raises_witness :
  let w : @world unit := initial_world in
  let w' := (on_create_activity tt sample_pem sample_draw transport_down
               (ActCreate (mention_of_bot hello_text)) w).2 in
  (ACTIVITY_STORE w' = ACTIVITY_STORE w /\ CACHE w' = CACHE w /\
   deliveries w' = deliveries w /\ tasks w' = tasks w) \/
  (exists d, deliveries w' = d :: deliveries w /\
     tr_send transport_down (d_keys d) (d_target d) (d_activity d) =
       Some (TransportError 0)).
Proof.
  apply (on_create_activity_raises tt sample_pem sample_draw transport_down
           (ActCreate (mention_of_bot hello_text)) initial_world
           (TransportError 0)).
  vm_compute. reflexivity.
Defined.

Definition tea_text : str := u "<p>@reminder 5m tea</p>".

Definition tea_task : reminder_task :=
  mk_task (mk_timedelta 0 300 0) (u "tea") alice (mention_note tea_text).

(** The state after the mention [5m tea] was acknowledged. *)
Definition world_after_ack : @world unit :=
  (on_create_activity tt sample_pem sample_draw transport_up
     (ActCreate (mention_of_bot tea_text)) initial_world).2.

Lemma on_create_activity_acknowledges_witness :
  let w : @world unit := initial_world in
  let body := ACK_PREFIX ++ u "5m" ++ u ".</p>" in
  let n := emitted_note sample_draw w (note_id (mention_note tea_text)) body
             alice in
  let c := emitted_create sample_draw w (note_id (mention_note tea_text)) body
             alice in
  let run := on_create_activity tt sample_pem sample_draw transport_up
               (ActCreate (mention_of_bot tea_text)) w in
  tasks run.2 = tea_task :: tasks w /\
  deliveries run.2 = mk_delivery (own_keys tt) alice (OutCreate c) :: deliveries w /\
  create_object c = ObjNote n /\
  content n = Some body /\ inReplyTo n = note_id (mention_note tea_text) /\
  note_to n = [actor_id alice] /\
  ACTIVITY_STORE run.2 !! object_uri KNote (sample_draw (uuids_drawn w)) =
    Some (StoredNote n) /\
  ACTIVITY_STORE run.2 !! object_uri KCreate (sample_draw (S (uuids_drawn w))) =
    Some (StoredCreate c) /\
  (tr_send transport_up (own_keys tt) alice (OutCreate c) = None ->
   run.1 = Ok (Response 202)).
Proof.
  apply (on_create_activity_acknowledges tt sample_pem sample_draw transport_up
           (mention_of_bot tea_text) (mention_note tea_text) tea_text
           (mk_timedelta 0 300 0) (u "tea") (u "5m") alice initial_world).
  - reflexivity.
  - vm_compute. reflexivity.
  - reflexivity.
  - vm_compute. reflexivity.
  - reflexivity.
  - reflexivity.
Defined.

Definition zero_text : str := u "<p>@reminder 0s tea</p>".

Lemma zero_delay_gets_usage_help_witness :
  let w : @world unit := initial_world in
  let c := emitted_create sample_draw w (note_id (mention_note zero_text))
             USAGE_HELP alice in
  let run := on_create_activity tt sample_pem sample_draw transport_up
               (ActCreate (mention_of_bot zero_text)) w in
  tasks run.2 = tasks w /\
  deliveries run.2 = mk_delivery (own_keys tt) alice (OutCreate c) :: deliveries w.
Proof.
  apply (zero_delay_gets_usage_help tt sample_pem sample_draw transport_up
           (mention_of_bot zero_text) (mention_note zero_text) zero_text
           (mk_timedelta 0 0 0) (Some (u "tea")) (Some (u "0s")) alice
           initial_world).
  - reflexivity.
  - vm_compute. reflexivity.
  - reflexivity.
  - vm_compute. reflexivity.
  - reflexivity.
  - reflexivity.
Defined.

Lemma world_after_ack_reachable :
  reachable tt sample_pem sample_draw world_after_ack.
Proof. apply rtc_once. apply step_create. Qed.

Lemma reminder_follows_acknowledgement_witness :
  timedelta_bool (task_delay tea_task) = true /\
  task_message tea_task <> [] /\
  exists d, In d (deliveries world_after_ack) /\ acknowledges d tea_task.
Proof.
  apply (reminder_follows_acknowledgement tt sample_pem sample_draw
           world_after_ack world_after_ack_reachable tea_task).
  vm_compute. left. reflexivity.
Defined.

Lemma deliveries_signed_with_own_key_witness :
  (forall d, In d (deliveries world_after_ack) ->
     d_keys d = [mk_ActorKey (key_id (app_publicKey (actor sample_pem))) tt]) /\
  (forall identifier,
     identifier <> actor_uri ->
     get_keys_for_actor tt sample_pem identifier = []) /\
  get_keys_for_actor tt sample_pem actor_uri =
    [mk_ActorKey (key_id (app_publicKey (actor sample_pem))) tt].
Proof.
  apply (deliveries_signed_with_own_key tt sample_pem sample_draw
           world_after_ack world_after_ack_reachable).
Defined.

Lemma sample_draws_distinct (n : nat) :
  (N.of_nat n < 2 ^ 128)%N -> distinct_draws sample_draw n.
Proof.
  intros Hn. split.
  - intros i Hi. cbn [sample_draw uuid_int]. lia.
  - intros i j _ _ H. injection H as H. lia.
Qed.

(** The URIs of the usage help sent to alice, and the URIs of the first
    eight draws. *)
Lemma activity_uri_shapes_witness :
  let run := on_create_activity tt sample_pem sample_draw transport_up
               (ActCreate (mention_of_bot hello_text)) initial_world in
  (exists n c,
     deliveries run.2 =
       mk_delivery (own_keys tt) alice (OutCreate c) :: deliveries initial_world /\
     create_object c = ObjNote n /\
     note_id n = Some (u "https://" ++ HOST ++ u "/notes/" ++
                       uuid_str (sample_draw (uuids_drawn (@initial_world unit)))) /\
     create_id c = Some (u "https://" ++ HOST ++ u "/creates/" ++
                         uuid_str (sample_draw (S (uuids_drawn (@initial_world unit))))) /\
     ACTIVITY_STORE run.2 !!
       object_uri KNote (sample_draw (uuids_drawn (@initial_world unit))) =
       Some (StoredNote n) /\
     ACTIVITY_STORE run.2 !!
       object_uri KCreate (sample_draw (S (uuids_drawn (@initial_world unit)))) =
       Some (StoredCreate c) /\
     uuids_drawn run.2 = S (S (uuids_drawn (@initial_world unit)))) /\
  (forall k i k' j, (i < 8)%nat -> (j < 8)%nat ->
     object_uri k (sample_draw i) = object_uri k' (sample_draw j) ->
     k = k' /\ i = j).
Proof.
  pose proof (activity_uri_shapes tt sample_pem sample_draw)
    as (Hreply & _ & _ & Hdistinct & _).
  split.
  - apply (Hreply transport_up (mention_of_bot hello_text)
             (mention_note hello_text) hello_text NoMatch alice initial_world).
    + reflexivity.
    + vm_compute. reflexivity.
    + reflexivity.
    + vm_compute. reflexivity.
    + reflexivity.
  - apply (Hdistinct 8%nat). apply sample_draws_distinct. vm_compute. reflexivity.
Defined.

Lemma object_uris_distinct_witness : KCreate = KCreate /\ 3%nat = 3%nat.
Proof.
  apply (object_uris_distinct sample_draw 8 KCreate KCreate 3 3).
  - apply sample_draws_distinct. vm_compute. reflexivity.
  - lia.
  - lia.
  - reflexivity.
Defined.

(** The state after a second mention, answered with the usage help. *)
Definition world_after_two : @world unit :=
  (on_create_activity tt sample_pem sample_draw transport_up
     (ActCreate (mention_of_bot hello_text)) world_after_ack).2.

Definition ack_note : Note :=
  emitted_note sample_draw (@initial_world unit)
    (note_id (mention_note tea_text))
    (ACK_PREFIX ++ u "5m" ++ u ".</p>") alice.

Lemma stored_entries_never_change_witness :
  ACTIVITY_STORE world_after_two !! object_uri KNote (sample_draw 0) =
    Some (StoredNote ack_note).
Proof.
  apply (stored_entries_never_change tt sample_pem sample_draw world_after_ack
           world_after_two).
  - exact world_after_ack_reachable.
  - apply rtc_once. apply step_create.
  - apply sample_draws_distinct. vm_compute. reflexivity.
  - vm_compute. reflexivity.
Defined.

Lemma fetch_answers_from_store_witness :
  ACTIVITY_STORE world_after_ack !! object_uri KNote (sample_draw 0) =
    Some (StoredNote ack_note).
Proof.
  apply (fetch_answers_from_store tt sample_pem sample_draw world_after_ack
           KNote (sample_draw 0) 1000000 1000001 (StoredNote ack_note)).
  - exact world_after_ack_reachable.
  - apply sample_draws_distinct. vm_compute. reflexivity.
  - vm_compute. reflexivity.
Defined.

Lemma fetch_of_unknown_is_404_witness :
  fetch_endpoint KNote (mk_UUID 99) 1000000 1000001 world_after_ack =
    (Ok (Response 404), after_store_miss world_after_ack).
Proof.
  apply (fetch_of_unknown_is_404 tt sample_pem sample_draw world_after_ack
           KNote (mk_UUID 99) 1000000 1000001).
  - exact world_after_ack_reachable.
  - intros i Hi H.
    assert (Hi' : (i < 2)%nat) by exact Hi.
    destruct i as [| [| i]]; [vm_compute in H; discriminate H
                             | vm_compute in H; discriminate H | lia].
Defined.

(* ===================================================================== *)
(** ** Key persistence and the published key *)
(* ===================================================================== *)

(** A Python [bytes]: the list of its byte values. *)
Definition bytes := list N.

Section KeyManager.

(** The operations of the [cryptography] package that start-up and a
    signing transport call, over its key and signature objects:
    - [load_pem_private_key data] is
      [load_pem_private_key(data, password=None)], which may raise;
    - [private_bytes k] is [k.private_bytes(PEM, PKCS8, NoEncryption())];
    - [public_key k] is [k.public_key()];
    - [public_pem p] is the text
      [p.public_bytes(PEM, SubjectPublicKeyInfo).decode('utf-8')];
    - [load_public_pem s] is how a peer reads a [publicKeyPem] back;
    - [sign] and [verify] are the signature scheme. *)
Variables PrivateKey PublicKey Signature : Type.
Variable load_pem_private_key : bytes -> result PrivateKey.
Variable private_bytes : PrivateKey -> bytes.
Variable public_key : PrivateKey -> PublicKey.
Variable public_pem : PublicKey -> str.
Variable load_public_pem : str -> option PublicKey.
Variable sign : PrivateKey -> bytes -> Signature.
Variable verify : PublicKey -> Signature -> bytes -> bool.

(** What the package promises: a public key is read back from its PEM
    text, and the public half of a key verifies what the key signs. *)
Hypothesis load_public_pem_public_pem :
  forall p, load_public_pem (public_pem p) = Some p.
Hypothesis verify_sign :
  forall k payload, verify (public_key k) (sign k payload) payload = true.

(** What start-up leaves behind: the module globals [private_key] and
    [public_key_pem], and the content of [KEY_FILE]. *)
Record process := mk_process {
  proc_private_key : PrivateKey;
  proc_public_key_pem : str;
  proc_key_file : option bytes
}.

(** Start-up.  [key_file] is the content of [KEY_FILE] if the file exists,
    [generated] the key [rsa.generate_private_key] would return.  A file
    that does not read as a key makes start-up raise. *)
Definition startup (key_file : option bytes) (generated : PrivateKey)
  : result process :=
  rbind
    (match key_file with
     | Some data =>
         rbind (load_pem_private_key data) (fun private_key =>
         Ok (private_key, key_file))
     | None => Ok (generated, Some (private_bytes generated))
     end)
    (fun '(private_key, key_file) =>
       let public_key_pem := public_pem (public_key private_key) in
       Ok (mk_process private_key public_key_pem key_file)).

(** The actor and the key retrieval function of a started process. *)
Definition proc_actor (p : process) : Application :=
  actor (proc_public_key_pem p).

Definition proc_keys (p : process) (identifier : str) : list ActorKey :=
  get_keys_for_actor (proc_private_key p) (proc_public_key_pem p) identifier.

Lemma startup_public_key_pem (key_file : option bytes) (generated : PrivateKey)
    (p : process) :
  startup key_file generated = Ok p ->
  proc_public_key_pem p = public_pem (public_key (proc_private_key p)).
Proof.
  unfold startup. intros H.
  destruct key_file as [data |]; cbn [rbind] in H.
  - destruct (load_pem_private_key data) as [k | e]; cbn [rbind] in H;
      [injection H as <-; reflexivity | discriminate].
  - injection H as <-. reflexivity.
Qed.

(** C1.  After a start-up that did not raise, whichever way it obtained
    the private key (read from the key file or generated): the PEM text
    in the actor's key record reads back as a public key, the Key Manager
    hands out a signing key for the actor under the identifier of that
    record, and for every payload the published key verifies the
    signature made with any key handed out. *)
Theorem signing_round_trip (key_file : option bytes) (generated : PrivateKey)
    (p : process) (payload : bytes) :
  startup key_file generated = Ok p ->
  exists published,
    load_public_pem (publicKeyPem (app_publicKey (proc_actor p))) =
      Some published /\
    proc_keys p (app_id (proc_actor p)) <> [] /\
    forall key, In key (proc_keys p (app_id (proc_actor p))) ->
      ak_key_id key = key_id (app_publicKey (proc_actor p)) /\
      verify published (sign (ak_private_key key) payload) payload = true.
Proof.
  intros Hstart. apply startup_public_key_pem in Hstart.
  exists (public_key (proc_private_key p)).
  unfold proc_actor, proc_keys. cbn [actor app_publicKey publicKeyPem].
  split; [rewrite Hstart; apply load_public_pem_public_pem |].
  unfold get_keys_for_actor. rewrite decide_True by reflexivity.
  split; [discriminate |].
  intros key [<- | []]. split; [reflexivity | apply verify_sign].
Qed.

(** X17.  Restart.  When the reader of private keys reads back what
    [private_bytes] writes, a process started from the key file that an
    earlier start-up left behind is the same process: the same private
    key, the same published PEM text and the same key file, whatever key
    the second start-up would have generated. *)
Theorem restart_keeps_identity (key_file : option bytes)
    (generated generated' : PrivateKey) (p : process) :
  (forall k, load_pem_private_key (private_bytes k) = Ok k) ->
  startup key_file generated = Ok p ->
  startup (proc_key_file p) generated' = Ok p.
Proof.
  intros Hround. unfold startup.
  destruct key_file as [data |]; cbn [rbind].
  - destruct (load_pem_private_key data) as [k | e] eqn:Hload;
      cbn [rbind]; [| discriminate].
    intros [= <-]. cbn [proc_key_file]. now rewrite Hload.
  - intros [= <-]. cbn [proc_key_file]. now rewrite Hround.
Qed.

End KeyManager.

(** *** A small RSA to run start-up on *)

Inductive toy_private := ToyPrivate.
Inductive toy_public := ToyPublic.

Definition toy_n : N := 3233.   (* 61 * 53 *)
Definition toy_e : positive := 17.
Definition toy_d : positive := 2753.

Fixpoint pow_mod (b : N) (e : positive) (n : N) : N :=
  match e with
  | xH => (b mod n)%N
  | xO e' => let r := pow_mod b e' n in ((r * r) mod n)%N
  | xI e' => let r := pow_mod b e' n in ((r * r * b) mod n)%N
  end.

Definition toy_digest (payload : bytes) : N :=
  (fold_right N.add 0 payload mod toy_n)%N.

Definition toy_sign (_ : toy_private) (payload : bytes) : N :=
  pow_mod (toy_digest payload) toy_d toy_n.

Definition toy_verify (_ : toy_public) (signature : N) (payload : bytes) : bool :=
  (pow_mod signature toy_e toy_n =? toy_digest payload)%N.

Definition toy_public_pem (_ : toy_public) : str := u "toy-rsa 3233 17".

Definition toy_load_public_pem (s : str) : option toy_public :=
  if decide (s = u "toy-rsa 3233 17") then Some ToyPublic else None.

Definition toy_private_bytes (_ : toy_private) : bytes := u "toy-rsa-private".

Definition toy_load_pem_private_key (data : bytes) : result toy_private :=
  if decide (data = u "toy-rsa-private") then Ok ToyPrivate
  else Raise ValueError.

Lemma toy_load_public_pem_public_pem (p : toy_public) :
  toy_load_public_pem (toy_public_pem p) = Some p.
Proof. destruct p. reflexivity. Qed.

Lemma toy_round_trip_below (h : N) :
  (h < toy_n)%N -> pow_mod (pow_mod h toy_d toy_n) toy_e toy_n = h.
Proof.
  intros Hlt.
  assert (Hall : forallb
            (fun x => (pow_mod (pow_mod x toy_d toy_n) toy_e toy_n =? x)%N)
            (List.map N.of_nat (seq 0 3233)) = true)
    by (vm_compute; reflexivity).
  rewrite forallb_forall in Hall. apply N.eqb_eq, Hall.
  apply in_map_iff. exists (N.to_nat h). split; [apply N2Nat.id |].
  apply in_seq. unfold toy_n in Hlt. lia.
Qed.

Lemma toy_verify_sign (k : toy_private) (payload : bytes) :
  toy_verify ToyPublic (toy_sign k payload) payload = true.
Proof.
  unfold toy_verify, toy_sign. apply N.eqb_eq, toy_round_trip_below.
  unfold toy_digest. apply N.mod_lt. discriminate.
Qed.

Definition toy_startup : option bytes -> toy_private -> result (process toy_private) :=
  startup toy_private toy_public toy_load_pem_private_key toy_private_bytes
    (fun _ => ToyPublic) toy_public_pem.

Definition toy_process : process toy_private :=
  mk_process toy_private ToyPrivate (u "toy-rsa 3233 17")
    (Some (u "toy-rsa-private")).

Lemma signing_round_trip_witness :
  let payload : bytes := u "(request-target): post /inbox" in
  toy_startup None ToyPrivate = Ok toy_process /\
  exists published,
    toy_load_public_pem
      (publicKeyPem (app_publicKey (proc_actor toy_private toy_process))) =
      Some published /\
    proc_keys toy_private toy_process
      (app_id (proc_actor toy_private toy_process)) <> [] /\
    forall key,
      In key (proc_keys toy_private toy_process
                (app_id (proc_actor toy_private toy_process))) ->
      ak_key_id key =
        key_id (app_publicKey (proc_actor toy_private toy_process)) /\
      toy_verify published (toy_sign (ak_private_key key) payload) payload = true.
Proof.
  split; [reflexivity |].
  apply (signing_round_trip toy_private toy_public N toy_load_pem_private_key
           toy_private_bytes (fun _ => ToyPublic) toy_public_pem
           toy_load_public_pem toy_sign toy_verify
           toy_load_public_pem_public_pem toy_verify_sign
           None ToyPrivate toy_process).
  reflexivity.
Defined.

Lemma toy_load_private_bytes (k : toy_private) :
  toy_load_pem_private_key (toy_private_bytes k) = Ok k.
Proof. destruct k. reflexivity. Qed.

Lemma restart_keeps_identity_witness :
  toy_startup (proc_key_file toy_private toy_process) ToyPrivate =
    Ok toy_process.
Proof.
  apply (restart_keeps_identity toy_private toy_public toy_load_pem_private_key
           toy_private_bytes (fun _ => ToyPublic) toy_public_pem
           None ToyPrivate ToyPrivate toy_process toy_load_private_bytes).
  reflexivity.
Defined.
